(** * Weather collection service (main.py): model and verified properties

    The service is glue between a remote weather API, a Redis key-value
    store and a FastAPI front end.  The model keeps the control flow of
    [main.py] as it is written:

    - Python exceptions are values of [exn]; a call either returns or
      raises ([outcome]); [try ... except] is [try_except];
    - the mutable process state (the Redis client, the asyncio tasks that
      were created, the log of outbound calls) is threaded explicitly
      through the state-and-exception monad [M];
    - the third-party pieces the program only calls (the [json] codec,
      the bytes Redis hands back, the pydantic field validators) form the
      interface [Libs]; the remote API and the wall clock are oracles. *)

From Stdlib Require Import ZArith Floats.
From stdpp Require Import gmap strings list fin_maps.

Local Open Scope Z_scope.
Local Open Scope string_scope.
Local Open Scope list_scope.

(** ** Python values and exceptions *)

(** Values produced by [json.loads] / consumed by [json.dumps]. A [JObj]
    lists the items of a [dict] in insertion order. *)
#[warnings="-register-all"]
Inductive json : Type :=
| JNull
| JBool (b : bool)
| JInt (z : Z)
| JFloat (f : float)
| JStr (s : string)
| JArr (l : list json)
| JObj (kv : list (string * json)).

(** The exception classes that occur in [main.py]. All of them derive from
    [Exception]; [ClientError] is [aiohttp.ClientError]. *)
Inductive exn : Type :=
| ClientError (msg : string)
| TimeoutError
| KeyError (k : string)
| TypeError
| UnboundLocalError (name : string)
| ValueError
| ValidationError
| ZeroDivisionError
| HTTPException (status_code : Z) (detail : string).

Inductive outcome (A : Type) : Type :=
| Return (a : A)
| Raise (e : exn).
Arguments Return {A} a.
Arguments Raise {A} e.

Definition obind {A B} (c : outcome A) (k : A -> outcome B) : outcome B :=
  match c with
  | Return a => k a
  | Raise e => Raise e
  end.

Declare Scope py_scope.
Delimit Scope py_scope with py.
Notation "x <- c ;; k" := (obind c (fun x => k))
  (at level 100, c at next level, right associativity) : py_scope.

(** [isinstance(e, aiohttp.ClientError)] *)
Definition is_ClientError (e : exn) : bool :=
  match e with
  | ClientError _ => true
  | _ => false
  end.

(** [isinstance(e, Exception)] *)
Definition is_Exception (e : exn) : bool := true.

(** [try: body except C1: h1 except C2: h2 ...]: the first clause whose
    class matches handles the exception, otherwise it propagates. *)
Fixpoint handle {A} (clauses : list ((exn -> bool) * (exn -> outcome A)))
    (e : exn) : outcome A :=
  match clauses with
  | [] => Raise e
  | (cls, h) :: rest => if cls e then h e else handle rest e
  end.

Definition try_except {A} (body : outcome A)
    (clauses : list ((exn -> bool) * (exn -> outcome A))) : outcome A :=
  match body with
  | Return a => Return a
  | Raise e => handle clauses e
  end.

(** [d[k]] for a value obtained from JSON. *)
Fixpoint assoc (k : string) (kv : list (string * json)) : option json :=
  match kv with
  | [] => None
  | (k', v) :: rest => if String.eqb k k' then Some v else assoc k rest
  end.

Definition getitem (d : json) (k : string) : outcome json :=
  match d with
  | JObj kv =>
      match assoc k kv with
      | Some v => Return v
      | None => Raise (KeyError k)
      end
  | _ => Raise TypeError
  end.

(** Iterating a value in a list comprehension. *)
Fixpoint chars (s : string) : list json :=
  match s with
  | EmptyString => []
  | String c s' => JStr (String c EmptyString) :: chars s'
  end.

Definition py_iter (j : json) : outcome (list json) :=
  match j with
  | JArr l => Return l
  | JObj kv => Return (map (fun p => JStr (fst p)) kv)
  | JStr s => Return (chars s)
  | _ => Raise TypeError
  end.

Fixpoint mapM {A B} (f : A -> outcome B) (l : list A) : outcome (list B) :=
  match l with
  | [] => Return []
  | a :: l' => (b <- f a ;; bs <- mapM f l' ;; Return (b :: bs))%py
  end.

(** ** The libraries the program calls *)

Class Libs : Type := {
  (** what [redis_client.get] hands back *)
  bytes : Type;
  (** truth value of a [bytes] object ([if data:]) *)
  bytes_truthy : bytes -> bool;
  (** [json.dumps], as stored by [redis_client.set] *)
  json_dumps : json -> bytes;
  (** [json.loads] *)
  json_loads : bytes -> outcome json;
  (** pydantic's validators for fields annotated [str], [int], [float] *)
  validate_str : json -> option string;
  validate_int : json -> option Z;
  validate_float : json -> option float
}.

(** What the proofs need of the libraries: the codec reads back what it
    wrote, never writes an empty blob, and a validator accepts a value
    that already has the annotated type. *)
Record LibsLaws (L : Libs) : Prop := {
  loads_dumps : forall j, json_loads (json_dumps j) = Return j;
  dumps_truthy : forall j, bytes_truthy (json_dumps j) = true;
  validate_str_id : forall s, validate_str (JStr s) = Some s;
  validate_int_id : forall z, validate_int (JInt z) = Some z;
  validate_float_id : forall f, validate_float (JFloat f) = Some f
}.

(** ** Data model *)

(** [class WeatherData(BaseModel)] *)
Record WeatherData : Type := {
  user_id : string;
  datetime : string;
  city_id : Z;
  temperature : float;
  humidity : Z
}.

(** [class WeatherRequest(BaseModel)] *)
Record WeatherRequest : Type := { req_user_id : string }.

Definition RATE_LIMIT : nat := 60.
Definition TIME_PERIOD : nat := 60.
Definition BATCH_SIZE : nat := 60.
Arguments BATCH_SIZE : simpl never.

Section Model.
Context {L : Libs}.

(** A required field: missing or ill-typed raises [ValidationError]. *)
Definition field {A} (validate : json -> option A) (name : string)
    (kwargs : list (string * json)) : outcome A :=
  match assoc name kwargs with
  | Some v =>
      match validate v with
      | Some a => Return a
      | None => Raise ValidationError
      end
  | None => Raise ValidationError
  end.

(** [WeatherData(user_id=..., datetime=..., ...)]; extra keywords are
    ignored. *)
Definition WeatherData_new (kwargs : list (string * json)) : outcome WeatherData :=
  (u <- field validate_str "user_id" kwargs ;;
   d <- field validate_str "datetime" kwargs ;;
   c <- field validate_int "city_id" kwargs ;;
   t <- field validate_float "temperature" kwargs ;;
   h <- field validate_int "humidity" kwargs ;;
   Return {| user_id := u; datetime := d; city_id := c;
             temperature := t; humidity := h |})%py.

(** The constructor applied to an unpacked mapping, [WeatherData] of
    [d] with the double-star operator. *)
Definition WeatherData_splat (d : json) : outcome WeatherData :=
  match d with
  | JObj kv => WeatherData_new kv
  | _ => Raise TypeError
  end.

(** [d.dict()] *)
Definition WeatherData_dict (d : WeatherData) : json :=
  JObj [("user_id", JStr (user_id d));
        ("datetime", JStr (datetime d));
        ("city_id", JInt (city_id d));
        ("temperature", JFloat (temperature d));
        ("humidity", JInt (humidity d))].


(** ** Process state and effects *)

(** What the process does to the outside world, in the order it does it. *)
Inductive event : Type :=
| EvFetch (city : Z)                               (* a call of fetch_weather_data *)
| EvStore (user : string) (data : list WeatherData) (* a call of store_weather_data *)
| EvSleep (seconds : nat).                          (* asyncio.sleep *)

(** What [session.get] and [response.json()] do for one call. *)
Inductive http_result : Type :=
| GetRaises (e : exn)
| Response (status : Z) (body : outcome json).

Record World : Type := {
  redis_client : gmap string bytes;  (* the Redis database *)
  calls : nat;                       (* outbound calls made so far *)
  trace : list event;
  tasks : list string                (* asyncio tasks created, by user id *)
}.

Definition M (A : Type) : Type := World -> outcome A * World.

Definition ret {A} (a : A) : M A := fun w => (Return a, w).
Definition raise {A} (e : exn) : M A := fun w => (Raise e, w).
Definition bind {A B} (c : M A) (k : A -> M B) : M B :=
  fun w =>
    match c w with
    | (Return a, w') => k a w'
    | (Raise e, w') => (Raise e, w')
    end.
Definition lift {A} (c : outcome A) : M A := fun w => (c, w).

Declare Scope m_scope.
Delimit Scope m_scope with M.
Notation "x <- c ;; k" := (bind c (fun x => k))
  (at level 100, c at next level, right associativity) : m_scope.

Definition emit (ev : event) : M unit :=
  fun w => (Return tt,
            {| redis_client := redis_client w; calls := calls w;
               trace := trace w ++ [ev]; tasks := tasks w |}).

Fixpoint mapM_M {A B} (f : A -> M B) (l : list A) : M (list B) :=
  match l with
  | [] => ret []
  | a :: l' => (b <- f a ;; bs <- mapM_M f l' ;; ret (b :: bs))%M
  end.

Fixpoint foldM {A B} (f : A -> B -> M A) (l : list B) (a : A) : M A :=
  match l with
  | [] => ret a
  | b :: l' => (a' <- f a b ;; foldM f l' a')%M
  end.

(** Truth value of a list: [if l:]. *)
Definition truthy {A} (l : list A) : bool :=
  match l with
  | [] => false
  | _ :: _ => true
  end.

(** [range(0, stop, step)] for a positive step. *)
Definition py_range (stop step : nat) : list nat :=
  (fun k => k * step)%nat <$> seq 0 ((stop + step - 1) `div` step)%nat.

(** [l[i:j]] for [0 <= i <= j]. *)
Definition slice {A} (l : list A) (i j : nat) : list A := take (j - i) (drop i l).

Section Service.
(** The catalog read from [cities.json] at start-up, the remote service
    ([n] numbers the outbound calls) and the UTC clock. *)
Variable CITIES : list Z.
Variable session_get : nat -> Z -> http_result.
Variable utcnow : nat -> string.

(** The [try] block of [fetch_weather_data], for the [n]-th outbound call. *)
Definition fetch_try (n : nat) (city_id : Z) (user_id : string)
    : outcome (option WeatherData) :=
  match session_get n city_id with
  | GetRaises e => Raise e
  | Response status body =>
      if (status =? 200)%Z then
        (data <- body ;;
         main <- getitem data "main" ;;
         temp <- getitem main "temp" ;;
         main' <- getitem data "main" ;;
         hum <- getitem main' "humidity" ;;
         weather_data <- WeatherData_new
           [("user_id", JStr user_id); ("datetime", JStr (utcnow n));
            ("city_id", JInt city_id); ("temperature", temp);
            ("humidity", hum)] ;;
         (* the f-string of logging.info reads data['name'] *)
         _ <- getitem data "name" ;;
         Return (Some weather_data))%py
      else
        (* logging.error reads [data], which this branch never bound *)
        Raise (UnboundLocalError "data")
  end.

(** [fetch_weather_data]: both [except] clauses log and return [None].
    The decorators [sleep_and_retry] and [limits] only delay the call. *)
Definition fetch_weather_data (city_id : Z) (user_id : string)
    : M (option WeatherData) :=
  fun w =>
    (try_except (fetch_try (calls w) city_id user_id)
       [(is_ClientError, fun _ => Return None);
        (is_Exception, fun _ => Return None)],
     {| redis_client := redis_client w; calls := S (calls w);
        trace := trace w ++ [EvFetch city_id]; tasks := tasks w |}).

(** [process_batch]: [asyncio.gather] returns the results in the order of
    [batch]; [None] results are filtered out. *)
Definition process_batch (batch : list Z) (user_id : string)
    : M (list WeatherData) :=
  (results <- mapM_M (fun city_id => fetch_weather_data city_id user_id) batch ;;
   ret (omap id results))%M.

Definition redis_key (user_id : string) : string :=
  String.append "weather:" user_id.

Definition store_weather_data (user_id : string) (data : list WeatherData)
    : M unit :=
  fun w =>
    let serialized_data := json_dumps (JArr (WeatherData_dict <$> data)) in
    (Return tt,
     {| redis_client := <[redis_key user_id := serialized_data]> (redis_client w);
        calls := calls w;
        trace := trace w ++ [EvStore user_id data]; tasks := tasks w |}).

(** [get_weather_data] against a given database. *)
Definition decode (db : gmap string bytes) (user_id : string)
    : outcome (list WeatherData) :=
  match db !! redis_key user_id with
  | Some data =>
      if bytes_truthy data then
        (j <- json_loads data ;;
         ds <- py_iter j ;;
         mapM WeatherData_splat ds)%py
      else Return []
  | None => Return []
  end.

Definition get_weather_data (user_id : string) : M (list WeatherData) :=
  fun w => (decode (redis_client w) user_id, w).

Definition asyncio_sleep (seconds : nat) : M unit := emit (EvSleep seconds).

(** One iteration of the [for i in range(...)] loop of
    [collect_weather_data]; [results] is the list the loop extends. *)
Definition collect_step (user_id : string) (cities_to_process : list Z)
    (results : list WeatherData) (i : nat) : M (list WeatherData) :=
  (let batch := slice cities_to_process i (i + BATCH_SIZE) in
   batch_results <- process_batch batch user_id ;;
   let results := results ++ batch_results in
   _ <- store_weather_data user_id results ;;
   _ <- (if (i + BATCH_SIZE <? length cities_to_process)%nat
         then asyncio_sleep 60 else ret tt) ;;
   ret results)%M.

Definition processed_city_ids (results : list WeatherData) : gset Z :=
  list_to_set (city_id <$> results).

Definition cities_to_process (results : list WeatherData) : list Z :=
  filter (fun city => city ∉ processed_city_ids results) CITIES.

(** [try: body except Exception: log; raise] *)
Definition try_reraise {A} (body : M A) : M A :=
  fun w =>
    match body w with
    | (Return a, w') => (Return a, w')
    | (Raise e, w') => (if is_Exception e then Raise e else Raise e, w')
    end.

Definition collect_weather_data (user_id : string) : M nat :=
  try_reraise
    (results <- get_weather_data user_id ;;
     let todo := cities_to_process results in
     results <- foldM (collect_step user_id todo)
                  (py_range (length todo) BATCH_SIZE) results ;;
     ret (length results))%M.

(** The JSON bodies the two endpoints answer with. *)
Record StartResponse : Type := { message : string; resp_user_id : string }.
Record ProgressResponse : Type := { prog_user_id : string; progress : float }.

(** The float a list length takes part in a division as. Lengths are
    below 2^53 (a longer list does not fit in memory), where the
    conversion is exact and the quotient of two integers is the float
    quotient of the converted operands. *)
Definition float_of_len (n : nat) : float :=
  PrimFloat.of_uint63 (Uint63.of_Z (Z.of_nat n)).

(** [asyncio.create_task(collect_weather_data(user_id))] *)
Definition create_task (user_id : string) : M unit :=
  fun w => (Return tt,
            {| redis_client := redis_client w; calls := calls w;
               trace := trace w; tasks := tasks w ++ [user_id] |}).

(** [POST /weather] *)
Definition post_weather_data (request : WeatherRequest) : M StartResponse :=
  (existing_data <- get_weather_data (req_user_id request) ;;
   if truthy existing_data then
     if (length existing_data =? length CITIES)%nat then
       ret {| message := "Data collection already completed for this user_id";
              resp_user_id := req_user_id request |}
     else
       ret {| message := "Resuming data collection";
              resp_user_id := req_user_id request |}
   else
     (_ <- create_task (req_user_id request) ;;
      ret {| message := "Data collection started";
             resp_user_id := req_user_id request |}))%M.

(** [GET /weather/{user_id}]; the quotient and the product are those of
    binary64 floats. *)
Definition get_weather_progress (user_id : string) : M ProgressResponse :=
  (data <- get_weather_data user_id ;;
   if negb (truthy data) then
     raise (HTTPException 404 "User ID not found")
   else if (length CITIES =? 0)%nat then raise ZeroDivisionError
   else
     ret {| prog_user_id := user_id;
            progress := (float_of_len (length data)
                         / float_of_len (length CITIES) * 100)%float |})%M.

(** ** Specification functions

    Pure readings of what the effectful code does, used to state the
    lemmas below. *)

(** The observation the [n]-th outbound call yields, if any. *)
Definition fetch_result (n : nat) (city_id : Z) (user : string)
    : option WeatherData :=
  match fetch_try n city_id user with
  | Return r => r
  | Raise _ => None
  end.

Fixpoint batch_fetch (n : nat) (batch : list Z) (user : string)
    : list (option WeatherData) :=
  match batch with
  | [] => []
  | c :: cs => fetch_result n c user :: batch_fetch (S n) cs user
  end.

(** The observations a batch contributes when its first call is the
    [n]-th. *)
Definition batch_results (n : nat) (batch : list Z) (user : string)
    : list WeatherData :=
  omap id (batch_fetch n batch user).

(** The pause that ends a loop iteration when more work is left. *)
Definition pause (todo : list Z) (i : nat) : list event :=
  if (i + BATCH_SIZE <? length todo)%nat then [EvSleep 60] else [].

End Service.
End Model.

(** ** A reference instance of the libraries

    Blobs are kept as the documents they encode and the validators accept
    exactly the values that already have the annotated type (an integer is
    also accepted where a float is expected, as long as the conversion is
    exact).  The closed examples below are evaluated with it. *)

Definition Z_to_float (z : Z) : option float :=
  if (Z.abs z <? 2 ^ 53)%Z then
    let m := PrimFloat.of_uint63 (Uint63.of_Z (Z.abs z)) in
    Some (if (z <? 0)%Z then PrimFloat.opp m else m)
  else None.

Definition doc_libs : Libs := {|
  bytes := json;
  bytes_truthy := fun _ => true;
  json_dumps := fun j => j;
  json_loads := fun b => Return b;
  validate_str := fun j => match j with JStr s => Some s | _ => None end;
  validate_int := fun j => match j with JInt z => Some z | _ => None end;
  validate_float := fun j =>
    match j with
    | JFloat f => Some f
    | JInt z => Z_to_float z
    | _ => None
    end
|}.

Definition empty_world {L : Libs} : World :=
  {| redis_client := ∅; calls := 0; trace := []; tasks := [] |}.

(** The calls of [fetch_weather_data] and the lists handed to
    [store_weather_data] that a trace records. *)
Definition fetched (evs : list event) : list Z :=
  omap (fun ev => match ev with EvFetch c => Some c | _ => None end) evs.

Definition saved (evs : list event) : list (list WeatherData) :=
  omap (fun ev => match ev with EvStore _ d => Some d | _ => None end) evs.

(** Each list of a sequence extends all the earlier ones. *)
Definition increasing {A} (ss : list (list A)) : Prop :=
  forall i j a b, (i <= j)%nat -> ss !! i = Some a -> ss !! j = Some b ->
    a `prefix_of` b.

(** The blob [store_weather_data] writes for a list of observations. *)
Definition blob_of {L : Libs} (data : list WeatherData) : bytes :=
  json_dumps (JArr (WeatherData_dict <$> data)).

(** The state of the loop of [collect_weather_data] after [k] iterations,
    started in world [w0] with the list [results0] for the work [todo]:
    [results] is the list in memory and [w] the world. *)
Definition loop_inv {L : Libs} (user : string) (todo : list Z)
    (results0 : list WeatherData) (w0 : World)
    (k : nat) (results : list WeatherData) (w : World) : Prop :=
  exists evs,
    trace w = trace w0 ++ evs /\
    tasks w = tasks w0 /\
    fetched evs = take (k * BATCH_SIZE) todo /\
    results0 `prefix_of` results /\
    Forall (fun s => results0 `prefix_of` s /\ s `prefix_of` results) (saved evs) /\
    increasing (saved evs) /\
    match k with
    | O => w = w0 /\ results = results0
    | S _ => redis_client w !! redis_key user = Some (blob_of results)
    end.

(** The ways one fetch can fail. *)
Inductive FetchError : Type :=
| TransportError
| RemoteError (status : Z)
| MalformedResponse.

(** The payload has the fields the observation is built from. *)
Definition has_fields (data : json) : bool :=
  match getitem data "main" with
  | Return main =>
      match getitem main "temp", getitem main "humidity" with
      | Return _, Return _ => true
      | _, _ => false
      end
  | Raise _ => false
  end.

Definition fetch_error (r : http_result) : option FetchError :=
  match r with
  | GetRaises _ => Some TransportError
  | Response status body =>
      if (status =? 200)%Z then
        match body with
        | Return data => if has_fields data then None else Some MalformedResponse
        | Raise _ => Some MalformedResponse
        end
      else Some (RemoteError status)
  end.

(** [n] start requests for the same user, one after the other. *)
Definition post_repeatedly {L : Libs} (CITIES : list Z) (n : nat)
    (request : WeatherRequest) : M (list StartResponse) :=
  mapM_M (fun _ : nat => post_weather_data CITIES request) (seq 0 n).

(** ** Concrete data for the examples *)

Definition catalog3 : list Z := [100; 200; 300].

Definition clock : nat -> string := fun _ => "2024-05-01T12:00:00+00:00".

Definition obs (user : string) (city : Z) : WeatherData :=
  {| user_id := user; datetime := "2024-05-01T12:00:00+00:00";
     city_id := city; temperature := 21.5%float; humidity := 60 |}.

Definition payload : json :=
  JObj [("name", JStr "Town");
        ("main", JObj [("temp", JFloat 21.5%float); ("humidity", JInt 60)])].

(** A remote service that answers every call. *)
Definition remote_up : nat -> Z -> http_result :=
  fun _ _ => Response 200 (Return payload).

(** A remote service that rejects every call (a wrong API key). *)
Definition remote_rejecting : nat -> Z -> http_result :=
  fun _ _ => Response 401 (Return (JObj [("message", JStr "Invalid API key")])).

(** A remote service that does not know city 200. *)
Definition remote_without_200 : nat -> Z -> http_result :=
  fun _ city =>
    if (city =? 200)%Z
    then Response 404 (Return (JObj [("message", JStr "city not found")]))
    else Response 200 (Return payload).

(** A world in which [data] is what is stored for [user], over the
    reference libraries. *)
Definition world_with (user : string) (data : list WeatherData)
    : @World doc_libs :=
  {| redis_client := {[ redis_key user := blob_of (L := doc_libs) data ]};
     calls := 0; trace := []; tasks := [] |}.

(** A catalog that needs two batches. *)
Definition catalog61 : list Z := Z.of_nat <$> seq 1 61.

(** A payload without [name], and a remote service that sends it. *)
Definition payload_nameless : json :=
  JObj [("main", JObj [("temp", JFloat 21.5%float); ("humidity", JInt 60)])].

Definition remote_nameless : nat -> Z -> http_result :=
  fun _ _ => Response 200 (Return payload_nameless).

(** ** The HTTP middleware *)

(** What the HTTP layer answers with. *)
Record Reply : Type := { reply_status : Z; reply_content : json }.

(** [error_handling_middleware]; [call_next] is the rest of the stack
    applied to the request. *)
Definition error_handling_middleware {L : Libs} (call_next : M Reply) : M Reply :=
  fun w =>
    match call_next w with
    | (Return response, w') => (Return response, w')
    | (Raise e, w') =>
        if is_Exception e then
          (Return {| reply_status := 500;
                     reply_content :=
                       JObj [("detail", JStr "An unexpected error occurred")] |},
           w')
        else (Raise e, w')
    end.

(** ** Further specification functions *)

(** The batches the loop of [collect_weather_data] takes from its work
    list. *)
Definition batches (todo : list Z) : list (list Z) :=
  (fun i => slice todo i (i + BATCH_SIZE)) <$> py_range (length todo) BATCH_SIZE.

(** The pauses a trace records. *)
Definition slept (evs : list event) : list nat :=
  omap (fun ev => match ev with EvSleep s => Some s | _ => None end) evs.

(** What [k] iterations of the loop have accumulated, beyond what
    [loop_inv] records: the number of outbound calls, the list in memory in
    closed form, the keys of other users, and the number of stores and
    pauses. *)
Definition loop_acc {L : Libs} (session_get : nat -> Z -> http_result)
    (utcnow : nat -> string) (user : string) (todo : list Z)
    (results0 : list WeatherData) (w0 : World)
    (k : nat) (results : list WeatherData) (w : World) : Prop :=
  calls w = (calls w0 + length (take (k * BATCH_SIZE) todo))%nat /\
  results = results0 ++ batch_results session_get utcnow (calls w0)
                          (take (k * BATCH_SIZE) todo) user /\
  (forall key, key <> redis_key user ->
     redis_client w !! key = redis_client w0 !! key) /\
  exists evs,
    trace w = trace w0 ++ evs /\
    length (saved evs) = k /\
    slept evs
    = replicate (k `min` (length (py_range (length todo) BATCH_SIZE) - 1)) 60%nat.

(** ** Basic facts *)

Lemma doc_libs_laws : LibsLaws doc_libs.
Proof. by split. Qed.

Lemma truthy_nil_iff {A} (l : list A) : truthy l = false <-> l = [].
Proof. by destruct l. Qed.

Lemma fetched_app evs1 evs2 : fetched (evs1 ++ evs2) = fetched evs1 ++ fetched evs2.
Proof. apply omap_app. Qed.

Lemma saved_app evs1 evs2 : saved (evs1 ++ evs2) = saved evs1 ++ saved evs2.
Proof. apply omap_app. Qed.

Lemma fetched_EvFetch (cs : list Z) : fetched (EvFetch <$> cs) = cs.
Proof.
  induction cs as [|c cs IH]; [done|].
  unfold fetched in *. cbn. by f_equal.
Qed.

Lemma saved_EvFetch (cs : list Z) : saved (EvFetch <$> cs) = [].
Proof. by induction cs. Qed.

(** *** Slicing a list into batches *)

Lemma py_range_length stop step :
  length (py_range stop step) = ((stop + step - 1) `div` step)%nat.
Proof. unfold py_range. by rewrite length_fmap, length_seq. Qed.

Lemma py_range_lookup stop step k :
  (k < length (py_range stop step))%nat ->
  py_range stop step !! k = Some (k * step)%nat.
Proof.
  rewrite py_range_length. intros Hk. unfold py_range.
  rewrite list_lookup_fmap, lookup_seq_lt by done. done.
Qed.

Lemma take_slice {A} (l : list A) n m :
  take n l ++ slice l n (n + m) = take (n + m) l.
Proof.
  unfold slice. replace (n + m - n)%nat with m by lia.
  revert l; induction n as [|n IH]; intros [|x l]; cbn; try done.
  - by rewrite take_nil.
  - by rewrite IH.
Qed.

(** *** A loop rule for [foldM] *)

Section LoopRule.
Context {L : Libs} {A B : Type}.

(** If every iteration returns and carries the invariant from position [k]
    to position [k + 1], the loop returns and the invariant holds at the
    end. *)
Lemma foldM_inv (f : A -> B -> M A) (I : nat -> A -> World -> Prop) (l : list B) :
  (forall k b a w, l !! k = Some b -> I k a w ->
     exists a' w', f a b w = (Return a', w') /\ I (S k) a' w') ->
  forall a w, I 0%nat a w ->
    exists a' w', foldM f l a w = (Return a', w') /\ I (length l) a' w'.
Proof.
  revert I. induction l as [|b l IH]; intros I Hstep a w H0.
  - exists a, w. by split.
  - destruct (Hstep 0%nat b a w eq_refl H0) as (a1 & w1 & Hf & H1).
    destruct (IH (fun k => I (S k))) with (a := a1) (w := w1)
      as (a' & w' & Hfold & Hend); [|done|].
    + intros k b' a2 w2 Hk HI. by apply (Hstep (S k)).
    + exists a', w'. split; [|done].
      cbn. unfold bind. by rewrite Hf.
Qed.

End LoopRule.

(** ** What one fetch, one batch and one loop iteration do *)

Section Facts.
Context {L : Libs}.
Variable CITIES : list Z.
Variable session_get : nat -> Z -> http_result.
Variable utcnow : nat -> string.

Lemma fetch_weather_data_spec c u w :
  fetch_weather_data session_get utcnow c u w
  = (Return (fetch_result session_get utcnow (calls w) c u),
     {| redis_client := redis_client w; calls := S (calls w);
        trace := trace w ++ [EvFetch c]; tasks := tasks w |}).
Proof.
  unfold fetch_weather_data, fetch_result. f_equal.
  destruct (fetch_try session_get utcnow (calls w) c u) as [r|e]; [done|].
  cbn. by destruct (is_ClientError e).
Qed.

Lemma gather_spec batch u w :
  mapM_M (fun c => fetch_weather_data session_get utcnow c u) batch w
  = (Return (batch_fetch session_get utcnow (calls w) batch u),
     {| redis_client := redis_client w; calls := (calls w + length batch)%nat;
        trace := trace w ++ (EvFetch <$> batch); tasks := tasks w |}).
Proof.
  revert w. induction batch as [|c cs IH]; intros w.
  - cbn. unfold ret. destruct w. cbn. by rewrite Nat.add_0_r, app_nil_r.
  - cbn [mapM_M]. unfold bind at 1. rewrite fetch_weather_data_spec.
    unfold bind at 1. rewrite IH. cbn. unfold ret. do 2 f_equal.
    + lia.
    + by rewrite <- app_assoc.
Qed.

Lemma process_batch_spec batch u w :
  process_batch session_get utcnow batch u w
  = (Return (batch_results session_get utcnow (calls w) batch u),
     {| redis_client := redis_client w; calls := (calls w + length batch)%nat;
        trace := trace w ++ (EvFetch <$> batch); tasks := tasks w |}).
Proof.
  unfold process_batch, bind. by rewrite gather_spec.
Qed.

(** The events of one loop iteration: the fetches of the batch, then the
    store of the extended list, then the pause if more work is left. *)
Lemma collect_step_spec u todo results i w :
  let batch := slice todo i (i + BATCH_SIZE) in
  let results' := results ++ batch_results session_get utcnow (calls w) batch u in
  collect_step session_get utcnow u todo results i w
  = (Return results',
     {| redis_client :=
          <[redis_key u := json_dumps (JArr (WeatherData_dict <$> results'))]>
            (redis_client w);
        calls := (calls w + length batch)%nat;
        trace := trace w ++ (EvFetch <$> batch) ++ [EvStore u results']
                         ++ pause todo i;
        tasks := tasks w |}).
Proof.
  intros batch results'. unfold collect_step, bind.
  rewrite process_batch_spec. fold batch. fold results'.
  unfold store_weather_data, pause, asyncio_sleep, emit, ret.
  destruct (i + BATCH_SIZE <? length todo)%nat; cbn.
  - by rewrite <- !app_assoc.
  - by rewrite <- !app_assoc.
Qed.

End Facts.

(** ** Reading back what was stored *)

Section Store.
Context {L : Libs} (laws : LibsLaws L).

Lemma WeatherData_splat_dict d : WeatherData_splat (WeatherData_dict d) = Return d.
Proof.
  destruct d as [u t c temp h]. unfold WeatherData_splat, WeatherData_dict.
  unfold WeatherData_new, field. cbn.
  rewrite !(validate_str_id _ laws), !(validate_int_id _ laws),
    (validate_float_id _ laws). done.
Qed.

Lemma mapM_splat_dict data :
  mapM WeatherData_splat (WeatherData_dict <$> data) = Return data.
Proof.
  induction data as [|d data IH]; [done|].
  cbn [fmap list_fmap mapM]. rewrite WeatherData_splat_dict. cbn.
  fold (fmap (M := list) WeatherData_dict data). by rewrite IH.
Qed.

Lemma decode_blob db u data :
  db !! redis_key u = Some (blob_of data) -> decode db u = Return data.
Proof.
  intros Hdb. unfold decode, blob_of in *. rewrite Hdb.
  rewrite (dumps_truthy _ laws), (loads_dumps _ laws). cbn.
  apply mapM_splat_dict.
Qed.

End Store.

(** ** The loop of [collect_weather_data] *)

Lemma increasing_nil {A} : increasing (@nil (list A)).
Proof. intros i j a b _ Hi. by rewrite lookup_nil in Hi. Qed.

Lemma increasing_snoc {A} (ss : list (list A)) s :
  increasing ss -> Forall (fun a => a `prefix_of` s) ss -> increasing (ss ++ [s]).
Proof.
  intros Hinc Hall i j a b Hij Hi Hj.
  destruct (decide (j < length ss)%nat) as [Hlt|Hge].
  - rewrite lookup_app_l in Hi, Hj by lia. by apply (Hinc i j).
  - assert (b = s) as ->.
    { rewrite lookup_app_r in Hj by lia.
      apply list_lookup_singleton_Some in Hj. by destruct Hj. }
    destruct (decide (i < length ss)%nat) as [Hlt|Hge'].
    + rewrite lookup_app_l in Hi by lia.
      eapply Forall_lookup_1 in Hall; [|done]. done.
    + rewrite lookup_app_r in Hi by lia.
      apply list_lookup_singleton_Some in Hi. by destruct Hi as [_ ->].
Qed.

Lemma fetched_pause todo i : fetched (pause todo i) = [].
Proof. unfold pause. by destruct (_ <? _)%nat. Qed.

Lemma saved_pause todo i : saved (pause todo i) = [].
Proof. unfold pause. by destruct (_ <? _)%nat. Qed.

Section Loop.
Context {L : Libs}.
Variable session_get : nat -> Z -> http_result.
Variable utcnow : nat -> string.

(** One iteration carries the loop state from position [k] to [k + 1]. *)
Lemma collect_step_inv u todo results0 w0 k results w :
  loop_inv u todo results0 w0 k results w ->
  exists results' w',
    collect_step session_get utcnow u todo results (k * BATCH_SIZE) w
      = (Return results', w') /\
    loop_inv u todo results0 w0 (S k) results' w'.
Proof.
  intros (evs & Htr & Htk & Hf & Hpre & Hall & Hinc & _).
  eexists _, _. split; [apply collect_step_spec|].
  set (batch := slice todo (k * BATCH_SIZE) (k * BATCH_SIZE + BATCH_SIZE)).
  set (results' := results ++ batch_results session_get utcnow (calls w) batch u).
  exists (evs ++ (EvFetch <$> batch) ++ [EvStore u results']
              ++ pause todo (k * BATCH_SIZE)).
  cbn [trace tasks redis_client]. split_and!.
  - rewrite Htr. by rewrite <- !app_assoc.
  - done.
  - rewrite !fetched_app, fetched_EvFetch, fetched_pause, Hf. cbn.
    rewrite app_nil_r. subst batch. rewrite take_slice. f_equal. lia.
  - etrans; [done|]. by apply prefix_app_r.
  - rewrite !saved_app, saved_EvFetch, saved_pause. cbn.
    apply Forall_app. split.
    + eapply Forall_impl; [done|]. cbn. intros s [? ?]. split; [done|].
      etrans; [done|]. by apply prefix_app_r.
    + apply Forall_singleton. split; [|done].
      etrans; [done|]. by apply prefix_app_r.
  - rewrite !saved_app, saved_EvFetch, saved_pause. cbn.
    apply increasing_snoc; [done|].
    eapply Forall_impl; [done|]. cbn. intros s [? ?].
    etrans; [done|]. by apply prefix_app_r.
  - apply lookup_insert_eq.
Qed.

Lemma loop_inv_start u todo results0 w0 :
  loop_inv u todo results0 w0 0 results0 w0.
Proof.
  exists []. rewrite app_nil_r.
  split_and!; first [done | apply increasing_nil].
Qed.

(** The first [k] iterations return and leave the loop in the state
    [loop_inv] describes. *)
Lemma collect_loop_prefix u todo results0 w0 k :
  (k <= length (py_range (length todo) BATCH_SIZE))%nat ->
  exists results w,
    foldM (collect_step session_get utcnow u todo)
      (take k (py_range (length todo) BATCH_SIZE)) results0 w0
      = (Return results, w) /\
    loop_inv u todo results0 w0 k results w.
Proof.
  intros Hk.
  destruct (foldM_inv (collect_step session_get utcnow u todo)
              (loop_inv u todo results0 w0)
              (take k (py_range (length todo) BATCH_SIZE)))
    with (a := results0) (w := w0) as (r & w & Hrun & Hinv).
  - intros j i r w Hj Hinv.
    assert (j < k)%nat as Hjk.
    { apply lookup_lt_Some in Hj. rewrite length_take in Hj. lia. }
    rewrite lookup_take_lt in Hj by done.
    rewrite py_range_lookup in Hj by lia. injection Hj as <-.
    by apply collect_step_inv.
  - apply loop_inv_start.
  - rewrite length_take, Nat.min_l in Hinv by done. by exists r, w.
Qed.

End Loop.

Lemma py_range_covers n step :
  (0 < step)%nat -> (n <= length (py_range n step) * step)%nat.
Proof.
  intros Hstep. rewrite py_range_length.
  pose proof (Nat.div_mod_eq (n + step - 1) step) as Hdm.
  pose proof (Nat.mod_upper_bound (n + step - 1) step) as Hlt.
  nia.
Qed.


Lemma elem_of_processed_city_ids c results :
  c ∈ processed_city_ids results <-> c ∈ city_id <$> results.
Proof. unfold processed_city_ids. apply elem_of_list_to_set. Qed.

Section Run.
Context {L : Libs}.
Variable CITIES : list Z.
Variable session_get : nat -> Z -> http_result.
Variable utcnow : nat -> string.

(** A run that finds a readable state returns the number of observations
    it ends with, after all iterations of its loop. *)
Lemma collect_weather_data_spec u w results0 :
  decode (redis_client w) u = Return results0 ->
  exists results w',
    collect_weather_data CITIES session_get utcnow u w
      = (Return (length results), w') /\
    loop_inv u (cities_to_process CITIES results0) results0 w
      (length (py_range (length (cities_to_process CITIES results0)) BATCH_SIZE))
      results w'.
Proof.
  intros Hdec.
  destruct (collect_loop_prefix session_get utcnow u
              (cities_to_process CITIES results0) results0 w
              (length (py_range (length (cities_to_process CITIES results0))
                         BATCH_SIZE)))
    as (results & w' & Hrun & Hinv); [done|].
  rewrite firstn_all in Hrun.
  exists results, w'. split; [|done].
  unfold collect_weather_data, try_reraise, bind, get_weather_data.
  rewrite Hdec, Hrun. done.
Qed.

(** A run that cannot read the state raises before doing anything. *)
Lemma collect_weather_data_unreadable u w e :
  decode (redis_client w) u = Raise e ->
  collect_weather_data CITIES session_get utcnow u w = (Raise e, w).
Proof.
  intros Hdec.
  unfold collect_weather_data, try_reraise, bind, get_weather_data.
  by rewrite Hdec.
Qed.

(** The calls of a whole run are the outstanding cities, in catalog
    order. *)
Lemma loop_inv_fetched_all u todo results0 w0 results w evs :
  loop_inv u todo results0 w0 (length (py_range (length todo) BATCH_SIZE))
    results w ->
  trace w = trace w0 ++ evs -> fetched evs = todo.
Proof.
  intros (evs' & Htr & _ & Hf & _) Htr'.
  rewrite Htr in Htr'. apply app_inv_head in Htr'. subst evs'.
  rewrite Hf. apply take_ge.
  apply py_range_covers. unfold BATCH_SIZE. lia.
Qed.

(** C1. A collection run started for a user whose persisted state reads
    as [results0] calls [fetch_weather_data] for exactly the catalog cities
    whose id is not in [results0], in catalog order; no city id already
    persisted is fetched. The world [w] is arbitrary, so this holds for
    every resumption, whatever earlier runs left in the store. *)
Theorem collect_fetches_exactly_the_remainder u w results0 :
  decode (redis_client w) u = Return results0 ->
  exists n w' evs,
    collect_weather_data CITIES session_get utcnow u w = (Return n, w') /\
    trace w' = trace w ++ evs /\
    fetched evs = filter (fun c => c ∉ city_id <$> results0) CITIES /\
    (forall c, c ∈ fetched evs <-> c ∈ CITIES /\ c ∉ city_id <$> results0) /\
    (forall c, c ∈ city_id <$> results0 -> c ∉ fetched evs).
Proof.
  intros Hdec.
  destruct (collect_weather_data_spec u w results0 Hdec)
    as (results & w' & Hrun & Hinv).
  pose proof Hinv as (evs & Htr & _).
  pose proof (loop_inv_fetched_all _ _ _ _ _ _ _ Hinv Htr) as Hf.
  assert (fetched evs = filter (fun c => c ∉ city_id <$> results0) CITIES) as Hfil.
  { rewrite Hf. unfold cities_to_process. apply list_filter_iff.
    intros c. by rewrite elem_of_processed_city_ids. }
  exists (length results), w', evs. split_and!; try done.
  - intros c. rewrite Hfil, list_elem_of_filter. tauto.
  - intros c Hin. rewrite Hfil, list_elem_of_filter. tauto.
Qed.

(** C10. Within one run every list handed to [store_weather_data] extends
    the list the run started from and every list stored earlier in the run:
    it has the earlier list as a prefix and is at least as long. *)
Theorem persisted_lists_only_grow u w results0 :
  decode (redis_client w) u = Return results0 ->
  exists n w' evs,
    collect_weather_data CITIES session_get utcnow u w = (Return n, w') /\
    trace w' = trace w ++ evs /\
    (forall s, s ∈ saved evs ->
       results0 `prefix_of` s /\ (length results0 <= length s)%nat) /\
    (forall i j a b, (i <= j)%nat ->
       saved evs !! i = Some a -> saved evs !! j = Some b ->
       a `prefix_of` b /\ (length a <= length b)%nat).
Proof.
  intros Hdec.
  destruct (collect_weather_data_spec u w results0 Hdec)
    as (results & w' & Hrun & (evs & Htr & _ & _ & _ & Hall & Hinc & _)).
  exists (length results), w', evs. split_and!; try done.
  - intros s Hs. eapply Forall_forall in Hall as [Hpre _]; [|done].
    split; [done|]. by apply prefix_length.
  - intros i j a b Hij Hi Hj.
    pose proof (Hinc i j a b Hij Hi Hj) as Hpre.
    split; [done|]. by apply prefix_length.
Qed.

End Run.

Section Durable.
Context {L : Libs} (laws : LibsLaws L).
Variable CITIES : list Z.
Variable session_get : nat -> Z -> http_result.
Variable utcnow : nat -> string.

Lemma loop_inv_decode u todo results0 w0 k results w :
  decode (redis_client w0) u = Return results0 ->
  loop_inv u todo results0 w0 k results w ->
  decode (redis_client w) u = Return results.
Proof.
  intros Hdec (evs & _ & _ & _ & _ & _ & _ & Hk).
  destruct k as [|k].
  - by destruct Hk as [-> ->].
  - by apply decode_blob.
Qed.

(** C9. Storing a list of observations for a user and reading the user's
    list back returns the list that was stored (given a codec that reads
    back what it wrote and validators that accept well-typed fields). *)
Theorem store_then_get_roundtrip u data w :
  exists w',
    store_weather_data u data w = (Return tt, w') /\
    get_weather_data u w' = (Return data, w').
Proof.
  eexists. split; [reflexivity|].
  unfold get_weather_data. f_equal. cbn [redis_client].
  apply (decode_blob laws). apply lookup_insert_eq.
Qed.


End Durable.

(** ** Failures of single fetches *)

Lemma fetch_error_no_result {L : Libs} session_get utcnow n c u err :
  fetch_error (session_get n c) = Some err ->
  fetch_result session_get utcnow n c u = None.
Proof.
  unfold fetch_error, fetch_result, fetch_try, has_fields.
  destruct (session_get n c) as [e|status [data|e]]; [done|..].
  - destruct (status =? 200)%Z; [|done].
    cbn. destruct (getitem data "main") as [main|e]; [|done].
    cbn. destruct (getitem main "temp") as [temp|e]; [|done].
    cbn. destruct (getitem main "humidity") as [hum|e]; done.
  - by destruct (status =? 200)%Z.
Qed.

Lemma batch_fetch_lookup {L : Libs} session_get utcnow n batch u k :
  batch_fetch session_get utcnow n batch u !! k
  = (fun c => fetch_result session_get utcnow (n + k) c u) <$> batch !! k.
Proof.
  revert n k. induction batch as [|c cs IH]; intros n [|k]; cbn; try done.
  - by rewrite Nat.add_0_r.
  - rewrite IH. by replace (S n + k)%nat with (n + S k)%nat by lia.
Qed.

Lemma elem_of_batch_results {L : Libs} session_get utcnow n batch u obs :
  obs ∈ batch_results session_get utcnow n batch u <->
  exists k c, batch !! k = Some c /\
    fetch_result session_get utcnow (n + k) c u = Some obs.
Proof.
  unfold batch_results. rewrite list_elem_of_omap. split.
  - intros (r & Hin & Hr). cbn in Hr. subst r.
    apply list_elem_of_lookup in Hin as [k Hk].
    rewrite batch_fetch_lookup in Hk.
    destruct (batch !! k) as [c|] eqn:Hc; [|done].
    cbn in Hk. injection Hk as Hk. by exists k, c.
  - intros (k & c & Hc & Hr). exists (Some obs). split; [|done].
    apply list_elem_of_lookup. exists k.
    rewrite batch_fetch_lookup, Hc. cbn. by rewrite Hr.
Qed.

Section Failures.
Context {L : Libs}.
Variable CITIES : list Z.
Variable session_get : nat -> Z -> http_result.
Variable utcnow : nat -> string.

(** C7. A call of [fetch_weather_data] always returns, and returns [None]
    when the transport raised, when the status is not 200, or when the
    payload of a 200 response cannot be read or lacks [main.temp] or
    [main.humidity]. [process_batch] returns, and its result holds exactly
    the observations its calls returned. A run that could read the state
    returns as well, having called [fetch_weather_data] for every
    outstanding city: no failed fetch ends a batch or the run. *)
Theorem fetch_failure_is_no_observation u :
  (forall c w,
     fst (fetch_weather_data session_get utcnow c u w)
       = Return (fetch_result session_get utcnow (calls w) c u) /\
     (forall err, fetch_error (session_get (calls w) c) = Some err ->
        fst (fetch_weather_data session_get utcnow c u w) = Return None)) /\
  (forall batch w, exists got,
     fst (process_batch session_get utcnow batch u w) = Return got /\
     forall obs, obs ∈ got <->
       exists k c, batch !! k = Some c /\
         fetch_result session_get utcnow (calls w + k) c u = Some obs) /\
  (forall w results0,
     decode (redis_client w) u = Return results0 ->
     exists n w' evs,
       collect_weather_data CITIES session_get utcnow u w = (Return n, w') /\
       trace w' = trace w ++ evs /\
       fetched evs = cities_to_process CITIES results0).
Proof.
  split_and!.
  - intros c w. rewrite fetch_weather_data_spec. split; [done|].
    intros err Herr. cbn. f_equal. by eapply fetch_error_no_result.
  - intros batch w. eexists. rewrite process_batch_spec. split; [done|].
    intros obs. apply elem_of_batch_results.
  - intros w results0 Hdec.
    destruct (collect_weather_data_spec CITIES session_get utcnow u w results0 Hdec)
      as (results & w' & Hrun & Hinv).
    pose proof Hinv as (evs & Htr & _).
    exists (length results), w', evs. split_and!; [done..|].
    by eapply loop_inv_fetched_all.
Qed.

End Failures.

(** ** The two endpoints *)

Section Endpoints.
Context {L : Libs}.
Variable CITIES : list Z.

Lemma post_weather_data_fresh request w :
  decode (redis_client w) (req_user_id request) = Return [] ->
  post_weather_data CITIES request w
  = (Return {| message := "Data collection started";
               resp_user_id := req_user_id request |},
     {| redis_client := redis_client w; calls := calls w; trace := trace w;
        tasks := tasks w ++ [req_user_id request] |}).
Proof.
  intros Hdec. unfold post_weather_data, bind, get_weather_data.
  by rewrite Hdec.
Qed.

Lemma post_weather_data_complete request w data :
  decode (redis_client w) (req_user_id request) = Return data ->
  data <> [] -> length data = length CITIES ->
  post_weather_data CITIES request w
  = (Return {| message := "Data collection already completed for this user_id";
               resp_user_id := req_user_id request |}, w).
Proof.
  intros Hdec Hne Hlen. unfold post_weather_data, bind, get_weather_data.
  rewrite Hdec. destruct data as [|d data]; [done|]. cbn [truthy].
  by rewrite Hlen, Nat.eqb_refl.
Qed.

Lemma post_weather_data_partial request w data :
  decode (redis_client w) (req_user_id request) = Return data ->
  data <> [] -> length data <> length CITIES ->
  post_weather_data CITIES request w
  = (Return {| message := "Resuming data collection";
               resp_user_id := req_user_id request |}, w).
Proof.
  intros Hdec Hne Hlen. unfold post_weather_data, bind, get_weather_data.
  rewrite Hdec. destruct data as [|d data]; [done|]. cbn [truthy].
  apply Nat.eqb_neq in Hlen. by rewrite Hlen.
Qed.

(** A state with one observation per catalog city has as many
    observations as the catalog has cities. *)
Lemma covering_state_length (data : list WeatherData) :
  NoDup CITIES -> NoDup (city_id <$> data) ->
  (forall c, c ∈ city_id <$> data <-> c ∈ CITIES) ->
  length data = length CITIES.
Proof.
  intros HC HD Hiff.
  rewrite <- (length_fmap city_id data).
  apply Permutation_length. by apply NoDup_Permutation.
Qed.

End Endpoints.

Section Requests.
Context {L : Libs}.
Variable CITIES : list Z.

Lemma post_repeatedly_complete request w data n :
  decode (redis_client w) (req_user_id request) = Return data ->
  data <> [] -> length data = length CITIES ->
  post_repeatedly CITIES n request w
  = (Return (replicate n
       {| message := "Data collection already completed for this user_id";
          resp_user_id := req_user_id request |}), w).
Proof.
  intros Hdec Hne Hlen. unfold post_repeatedly. generalize 0%nat.
  induction n as [|n IH]; intros start; [done|].
  cbn [seq mapM_M]. unfold bind.
  rewrite (post_weather_data_complete CITIES request w data) by done.
  by rewrite IH.
Qed.

(** C4, amended. For a user whose persisted list is not empty and holds
    one observation for each city of the (duplicate-free) catalog, every
    one of any number of start requests answers that the collection is
    already completed and leaves the world as it was: no call of
    [fetch_weather_data], no task created, nothing stored. *)
Theorem completed_user_is_not_restarted request w data n :
  NoDup CITIES ->
  decode (redis_client w) (req_user_id request) = Return data ->
  NoDup (city_id <$> data) ->
  (forall c, c ∈ city_id <$> data <-> c ∈ CITIES) ->
  data <> [] ->
  post_repeatedly CITIES n request w
  = (Return (replicate n
       {| message := "Data collection already completed for this user_id";
          resp_user_id := req_user_id request |}), w).
Proof.
  intros HC Hdec HD Hcov Hne.
  apply (post_repeatedly_complete request w data); [done..|].
  by apply covering_state_length.
Qed.

(** C6, amended. The program keeps no registry of running jobs: what a
    start request does is decided by the persisted list alone. While
    nothing is persisted for the user, each of two requests in a row
    creates a task and answers that the collection started; once the list
    is not empty, a request creates no task and answers that the
    collection is already completed when the list is as long as the
    catalog, and "Resuming data collection" otherwise. *)
Theorem start_is_gated_by_the_persisted_list request w data :
  decode (redis_client w) (req_user_id request) = Return data ->
  exists resp1 w1 resp2 w2,
    post_weather_data CITIES request w = (Return resp1, w1) /\
    post_weather_data CITIES request w1 = (Return resp2, w2) /\
    (data = [] ->
       message resp1 = "Data collection started" /\
       message resp2 = "Data collection started" /\
       tasks w2 = tasks w ++ [req_user_id request; req_user_id request]) /\
    (data <> [] ->
       w1 = w /\ w2 = w /\ resp2 = resp1 /\
       message resp1 <> "Data collection started" /\
       (message resp1 = "Resuming data collection" \/
        message resp1 = "Data collection already completed for this user_id") /\
       (length data = length CITIES ->
        message resp1 = "Data collection already completed for this user_id") /\
       (length data <> length CITIES ->
        message resp1 = "Resuming data collection")).
Proof.
  intros Hdec. destruct data as [|d data].
  - eexists _, _, _, _. split_and!.
    + by apply post_weather_data_fresh.
    + by apply post_weather_data_fresh.
    + intros _. cbn. by rewrite <- app_assoc.
    + done.
  - destruct (decide (length (d :: data) = length CITIES)) as [Hlen|Hlen].
    + eexists _, w, _, w. split_and!.
      * by eapply post_weather_data_complete.
      * by eapply post_weather_data_complete.
      * done.
      * intros _. cbn [message]. split_and!; try done. by right.
    + eexists _, w, _, w. split_and!.
      * by eapply post_weather_data_partial.
      * by eapply post_weather_data_partial.
      * done.
      * intros _. cbn [message]. split_and!; try done. by left.
Qed.

(** C8, amended. When the user's stored blob can be read, the progress
    query raises the 404 [HTTPException] exactly when the list it reads is
    empty, which is the case when no key is stored and also when an empty
    list is stored; for a non-empty list and a non-empty catalog it returns
    the number of observations divided by the catalog size, times 100,
    both operations being those of binary64 floats. *)
Theorem progress_not_found_iff_nothing_collected u w data :
  decode (redis_client w) u = Return data ->
  (fst (get_weather_progress CITIES u w)
     = Raise (HTTPException 404 "User ID not found") <-> data = []) /\
  (data <> [] -> CITIES <> [] ->
   get_weather_progress CITIES u w
   = (Return {| prog_user_id := u;
                progress := (float_of_len (length data)
                             / float_of_len (length CITIES) * 100)%float |},
      w)).
Proof.
  intros Hdec. unfold get_weather_progress, bind, get_weather_data.
  rewrite Hdec. destruct data as [|d data]; cbn [truthy negb].
  - split; [done|]. done.
  - split.
    + split; [|done]. destruct CITIES; cbn; unfold raise, ret; cbn; done.
    + intros _ HC. destruct CITIES as [|c cs]; [done|]. done.
Qed.

End Requests.

(** ** The theorems at concrete inputs *)

Lemma collect_fetches_exactly_the_remainder_witness :
  exists n w' evs,
    collect_weather_data catalog3 remote_up clock "u"
      (world_with "u" [obs "u" 100; obs "u" 300]) = (Return n, w') /\
    trace w' = evs /\ fetched evs = [200].
Proof.
  destruct (collect_fetches_exactly_the_remainder catalog3 remote_up clock "u"
              (world_with "u" [obs "u" 100; obs "u" 300])
              [obs "u" 100; obs "u" 300])
    as (n & w' & evs & Hrun & Htr & Hf & _); [reflexivity|].
  exists n, w', evs. split_and!; [exact Hrun|exact Htr|].
  rewrite Hf. vm_compute. reflexivity.
Defined.

Lemma persisted_lists_only_grow_witness :
  exists n w' evs,
    collect_weather_data catalog61 remote_without_200 clock "u"
      (empty_world (L := doc_libs)) = (Return n, w') /\
    trace w' = evs /\
    forall a b : list WeatherData, saved evs !! 0%nat = Some a -> saved evs !! 1%nat = Some b ->
      a `prefix_of` b.
Proof.
  destruct (persisted_lists_only_grow (L := doc_libs) catalog61
              remote_without_200 clock "u" empty_world [])
    as (n & w' & evs & Hrun & Htr & _ & Hinc); [reflexivity|].
  exists n, w', evs. split_and!; [exact Hrun|exact Htr|].
  intros a b Ha Hb. apply (Hinc 0%nat 1%nat a b); [lia|exact Ha|exact Hb].
Defined.

Lemma store_then_get_roundtrip_witness :
  exists w',
    store_weather_data "u" [obs "u" 100; obs "u" 300]
      (empty_world (L := doc_libs)) = (Return tt, w') /\
    get_weather_data "u" w' = (Return [obs "u" 100; obs "u" 300], w').
Proof.
  apply (store_then_get_roundtrip doc_libs_laws).
Defined.


Lemma fetch_failure_is_no_observation_witness :
  fst (fetch_weather_data (L := doc_libs) remote_without_200 clock 200 "u"
         empty_world) = Return None.
Proof.
  destruct (fetch_failure_is_no_observation (L := doc_libs) catalog3
              remote_without_200 clock "u") as (Hfetch & _ & _).
  destruct (Hfetch 200 empty_world) as [_ Hnone].
  apply (Hnone (RemoteError 404)). reflexivity.
Defined.

Lemma completed_user_is_not_restarted_witness :
  post_repeatedly catalog3 2 {| req_user_id := "u" |}
    (world_with "u" [obs "u" 100; obs "u" 200; obs "u" 300])
  = (Return (replicate 2
       {| message := "Data collection already completed for this user_id";
          resp_user_id := "u" |}),
     world_with "u" [obs "u" 100; obs "u" 200; obs "u" 300]).
Proof.
  apply (completed_user_is_not_restarted catalog3 {| req_user_id := "u" |}
           (world_with "u" [obs "u" 100; obs "u" 200; obs "u" 300])
           [obs "u" 100; obs "u" 200; obs "u" 300] 2).
  - compute_done.
  - reflexivity.
  - compute_done.
  - intros c. cbn. unfold catalog3. reflexivity.
  - discriminate.
Defined.

Lemma start_is_gated_by_the_persisted_list_witness :
  exists resp1 w1 resp2 w2,
    post_weather_data catalog3 {| req_user_id := "u" |} (empty_world (L := doc_libs))
      = (Return resp1, w1) /\
    post_weather_data catalog3 {| req_user_id := "u" |} w1 = (Return resp2, w2) /\
    tasks w2 = ["u"; "u"].
Proof.
  destruct (start_is_gated_by_the_persisted_list (L := doc_libs) catalog3
              {| req_user_id := "u" |} empty_world [])
    as (resp1 & w1 & resp2 & w2 & H1 & H2 & Hfresh & _); [reflexivity|].
  exists resp1, w1, resp2, w2. split_and!; [exact H1|exact H2|].
  destruct (Hfresh eq_refl) as (_ & _ & Htasks). exact Htasks.
Defined.

Lemma progress_not_found_iff_nothing_collected_witness :
  get_weather_progress catalog3 "u" (world_with "u" [obs "u" 100; obs "u" 300])
  = (Return {| prog_user_id := "u";
               (* 66.66666666666666, as Python prints it *)
               progress := 0x1.0aaaaaaaaaaaap+6%float |},
     world_with "u" [obs "u" 100; obs "u" 300]).
Proof.
  destruct (progress_not_found_iff_nothing_collected catalog3 "u"
              (world_with "u" [obs "u" 100; obs "u" 300])
              [obs "u" 100; obs "u" 300]) as [_ Hprog]; [reflexivity|].
  assert ((float_of_len 2 / float_of_len 3 * 100)%float
          = 0x1.0aaaaaaaaaaaap+6%float) as Hquot by (vm_compute; reflexivity).
  rewrite <- Hquot. apply Hprog; discriminate.
Defined.


(** ** Where the program departs from the claims *)

(** C4 as stated fails for an empty catalog: the stored (empty) list
    covers it, yet the request creates a task and answers that the
    collection started. *)
Lemma empty_catalog_start_is_not_completed :
  let w := world_with "u" [] in
  let r := post_weather_data [] {| req_user_id := "u" |} w in
  decode (redis_client w) "u" = Return [] /\
  (forall c : Z, c ∈ @nil Z -> c ∈ city_id <$> @nil WeatherData) /\
  fst r = Return {| message := "Data collection started"; resp_user_id := "u" |} /\
  fst r <> Return {| message := "Data collection already completed for this user_id";
                     resp_user_id := "u" |} /\
  tasks (snd r) = ["u"].
Proof.
  intros w r. split; [|split; [|split; [|split]]].
  - vm_compute; reflexivity.
  - intros c Hc; exact Hc.
  - vm_compute; reflexivity.
  - vm_compute; discriminate.
  - vm_compute; reflexivity.
Qed.

(** C5. With the catalog [100, 200, 300] and observations persisted for
    100 and 300, a start request answers "Resuming data collection" and
    returns without creating a task, so nothing is collected; the collector
    itself, were it started on that state, would call the remote service
    for city 200 only. *)
Theorem resume_request_starts_no_job :
  let w := world_with "u" [obs "u" 100; obs "u" 300] in
  let run := collect_weather_data catalog3 remote_up clock "u" w in
  post_weather_data catalog3 {| req_user_id := "u" |} w
    = (Return {| message := "Resuming data collection"; resp_user_id := "u" |},
       w) /\
  tasks w = [] /\
  fst run = Return 3%nat /\
  fetched (trace (snd run)) = [200].
Proof.
  intros w run. split; [|split; [|split]].
  - apply (post_weather_data_partial catalog3 {| req_user_id := "u" |} w
             [obs "u" 100; obs "u" 300]).
    + vm_compute; reflexivity.
    + discriminate.
    + vm_compute; lia.
  - reflexivity.
  - vm_compute; reflexivity.
  - vm_compute; reflexivity.
Qed.

(** C6 as stated fails: two start requests in a row for a user with
    nothing persisted both answer that the collection started, and two
    tasks are created for that user. *)
Lemma two_start_requests_start_two_jobs :
  let request := {| req_user_id := "u" |} in
  let r1 := post_weather_data catalog3 request (empty_world (L := doc_libs)) in
  let r2 := post_weather_data catalog3 request (snd r1) in
  fst r1 = Return {| message := "Data collection started"; resp_user_id := "u" |} /\
  fst r2 = Return {| message := "Data collection started"; resp_user_id := "u" |} /\
  tasks (snd r2) = ["u"; "u"].
Proof.
  intros request r1 r2. split; [|split]; vm_compute; reflexivity.
Qed.

(** C8 as stated fails: after a run in which every fetch was rejected, a
    list is stored for the user (an empty one), and the progress query
    still raises the 404 exception. *)
Lemma progress_not_found_although_state_is_persisted :
  let run := collect_weather_data catalog3 remote_rejecting clock "u"
               (empty_world (L := doc_libs)) in
  fst run = Return 0%nat /\
  redis_client (snd run) !! redis_key "u" = Some (blob_of []) /\
  fst (get_weather_progress catalog3 "u" (snd run))
    = Raise (HTTPException 404 "User ID not found").
Proof.
  intros run. split; [|split]; vm_compute; reflexivity.
Qed.

(** ** The scenarios of the specification, evaluated *)

(** City 200 fails: the run ends with two observations, for 100 and 300,
    the progress query reports 66.66666666666666, and a run started on that
    state fetches city 200 only. *)
Example scenario_city_200_fails :
  let run := collect_weather_data catalog3 remote_without_200 clock "u"
               (empty_world (L := doc_libs)) in
  fst run = Return 2%nat /\
  fetched (trace (snd run)) = [100; 200; 300] /\
  (city_id <$> default [] (last (saved (trace (snd run))))) = [100; 300] /\
  fst (get_weather_progress catalog3 "u" (snd run))
    = Return {| prog_user_id := "u";
                (* 66.66666666666666, as Python prints it *)
                progress := 0x1.0aaaaaaaaaaaap+6%float |} /\
  fetched (drop 4 (trace (snd (collect_weather_data catalog3 remote_up clock "u"
                                  (snd run))))) = [200].
Proof.
  intros run. split; [|split; [|split; [|split]]]; vm_compute; reflexivity.
Qed.

(** A catalog of 61 cities takes two batches: 60 fetches, the store of 60
    observations, the pause, then the last fetch and the store of 61. *)
Example scenario_two_batches :
  let run := collect_weather_data catalog61 remote_up clock "u"
               (empty_world (L := doc_libs)) in
  fst run = Return 61%nat /\
  length <$> saved (trace (snd run)) = [60%nat; 61%nat] /\
  drop 59 (trace (snd run))
  = [EvFetch 60; EvStore "u" (obs "u" <$> take 60 catalog61); EvSleep 60;
     EvFetch 61; EvStore "u" (obs "u" <$> catalog61)].
Proof.
  intros run. split; [|split]; vm_compute; reflexivity.
Qed.

(** * Further properties of the code *)

(** ** One fetch *)

Section FetchSuccess.
Context {L : Libs} (laws : LibsLaws L).
Variable session_get : nat -> Z -> http_result.
Variable utcnow : nat -> string.

(** What a call that yielded an observation must have received. *)
Lemma fetch_result_inv n c u o :
  fetch_result session_get utcnow n c u = Some o ->
  exists data main temp hum name t h,
    session_get n c = Response 200 (Return data) /\
    getitem data "main" = Return main /\
    getitem main "temp" = Return temp /\
    getitem main "humidity" = Return hum /\
    getitem data "name" = Return name /\
    validate_float temp = Some t /\
    validate_int hum = Some h /\
    o = {| user_id := u; datetime := utcnow n; city_id := c;
           temperature := t; humidity := h |}.
Proof.
  unfold fetch_result, fetch_try.
  destruct (session_get n c) as [e|status [data|e]]; [done| |].
  2:{ by destruct (status =? 200)%Z. }
  destruct (status =? 200)%Z eqn:Hst; [|done].
  apply Z.eqb_eq in Hst. subst status. cbn [obind].
  destruct (getitem data "main") as [main|e] eqn:Hm; [|done]. cbn [obind].
  destruct (getitem main "temp") as [temp|e] eqn:Ht; [|done]. cbn [obind].
  destruct (getitem main "humidity") as [hum|e] eqn:Hh; [|done]. cbn [obind].
  unfold WeatherData_new, field. cbn [assoc String.eqb Ascii.eqb Bool.eqb].
  rewrite !(validate_str_id _ laws), (validate_int_id _ laws). cbn [obind].
  destruct (validate_float temp) as [t|] eqn:Hvt; [|done]. cbn [obind].
  destruct (validate_int hum) as [h|] eqn:Hvh; [|done]. cbn [obind].
  destruct (getitem data "name") as [name|e] eqn:Hn; [|done]. cbn [obind].
  intros [= <-]. by exists data, main, temp, hum, name, t, h.
Qed.

(** A call yields an observation exactly when the status is 200, the
    payload can be read, holds [main.temp] and [main.humidity] with values
    the validators accept, and holds [name]; the observation then carries
    the given user and city, the time of the call and the validated
    values. *)
Theorem fetch_succeeds_iff n c u o :
  fetch_result session_get utcnow n c u = Some o <->
  exists data main temp hum name t h,
    session_get n c = Response 200 (Return data) /\
    getitem data "main" = Return main /\
    getitem main "temp" = Return temp /\
    getitem main "humidity" = Return hum /\
    getitem data "name" = Return name /\
    validate_float temp = Some t /\
    validate_int hum = Some h /\
    o = {| user_id := u; datetime := utcnow n; city_id := c;
           temperature := t; humidity := h |}.
Proof.
  split; [apply fetch_result_inv|].
  intros (data & main & temp & hum & name & t & h
          & Hget & Hm & Ht & Hh & Hn & Hvt & Hvh & ->).
  unfold fetch_result, fetch_try. rewrite Hget.
  cbn. rewrite Hm. cbn. rewrite Ht. cbn. rewrite Hh. cbn.
  unfold WeatherData_new, field. cbn [assoc String.eqb Ascii.eqb Bool.eqb].
  rewrite !(validate_str_id _ laws), (validate_int_id _ laws). cbn [obind].
  rewrite Hvt, Hvh. cbn. by rewrite Hn.
Qed.

End FetchSuccess.

Section FetchEdges.
Context {L : Libs}.
Variable session_get : nat -> Z -> http_result.
Variable utcnow : nat -> string.

(** A 200 response whose payload has no [name] yields no observation,
    even when temperature and humidity are present: the log line that
    follows the construction of the record reads [data['name']]. *)
Theorem fetch_without_name_is_dropped c u w data e :
  session_get (calls w) c = Response 200 (Return data) ->
  getitem data "name" = Raise e ->
  fst (fetch_weather_data session_get utcnow c u w) = Return None.
Proof.
  intros Hget Hname. rewrite fetch_weather_data_spec. cbn [fst]. f_equal.
  unfold fetch_result, fetch_try. rewrite Hget. cbn [Z.eqb Pos.eqb obind].
  destruct (getitem data "main") as [main|e1]; [|done]. cbn [obind].
  destruct (getitem main "temp") as [temp|e1]; [|done]. cbn [obind].
  destruct (getitem main "humidity") as [hum|e1]; [|done]. cbn [obind].
  destruct (WeatherData_new _) as [o|e1]; [|done]. cbn [obind].
  by rewrite Hname.
Qed.

Lemma batch_fetch_app n l1 l2 u :
  batch_fetch session_get utcnow n (l1 ++ l2) u
  = batch_fetch session_get utcnow n l1 u
    ++ batch_fetch session_get utcnow (n + length l1) l2 u.
Proof.
  revert n. induction l1 as [|c l1 IH]; intros n; cbn.
  - by rewrite Nat.add_0_r.
  - rewrite IH. by replace (S n + length l1)%nat with (n + S (length l1))%nat by lia.
Qed.

Lemma batch_results_app n l1 l2 u :
  batch_results session_get utcnow n (l1 ++ l2) u
  = batch_results session_get utcnow n l1 u
    ++ batch_results session_get utcnow (n + length l1) l2 u.
Proof. unfold batch_results. by rewrite batch_fetch_app, omap_app. Qed.

Lemma batch_results_length n l u :
  (length (batch_results session_get utcnow n l u) <= length l)%nat.
Proof.
  unfold batch_results. revert n. induction l as [|c l IH]; intros n; cbn; [done|].
  specialize (IH (S n)).
  destruct (fetch_result session_get utcnow n c u); cbn; lia.
Qed.

Lemma batch_results_all n l u :
  (forall k c, l !! k = Some c ->
     fetch_result session_get utcnow (n + k) c u <> None) ->
  length (batch_results session_get utcnow n l u) = length l.
Proof.
  unfold batch_results. revert n. induction l as [|c l IH]; intros n Hall; [done|].
  cbn. pose proof (Hall 0%nat c eq_refl) as H0. rewrite Nat.add_0_r in H0.
  destruct (fetch_result session_get utcnow n c u) as [o|]; [|done].
  cbn. f_equal. apply IH. intros k c' Hk.
  replace (S n + k)%nat with (n + S k)%nat by lia. by apply Hall.
Qed.

End FetchEdges.

Section BatchIds.
Context {L : Libs} (laws : LibsLaws L).
Variable session_get : nat -> Z -> http_result.
Variable utcnow : nat -> string.

Lemma fetch_result_fields n c u o :
  fetch_result session_get utcnow n c u = Some o ->
  user_id o = u /\ city_id o = c /\ datetime o = utcnow n.
Proof.
  intros Ho. apply (fetch_result_inv laws) in Ho
    as (data & main & temp & hum & name & t & h & _ & _ & _ & _ & _ & _ & _ & ->).
  done.
Qed.

Lemma batch_results_sublist n l u :
  city_id <$> batch_results session_get utcnow n l u `sublist_of` l.
Proof.
  unfold batch_results. revert n. induction l as [|c l IH]; intros n; cbn; [done|].
  destruct (fetch_result session_get utcnow n c u) as [o|] eqn:Ho; cbn.
  - apply fetch_result_fields in Ho as (_ & -> & _). by apply sublist_skip.
  - by apply sublist_cons.
Qed.

Lemma batch_results_user n l u :
  Forall (fun o => user_id o = u) (batch_results session_get utcnow n l u).
Proof.
  unfold batch_results. revert n. induction l as [|c l IH]; intros n; cbn; [done|].
  destruct (fetch_result session_get utcnow n c u) as [o|] eqn:Ho; cbn; [|done].
  apply fetch_result_fields in Ho as (? & _). by constructor.
Qed.

End BatchIds.

(** ** Batching *)

Lemma ceil_div_spec n step :
  (0 < step)%nat ->
  forall k, (k < (n + step - 1) `div` step <-> k * step < n)%nat.
Proof.
  intros Hstep k.
  pose proof (Nat.div_mod_eq (n + step - 1) step) as Hdm.
  pose proof (Nat.mod_upper_bound (n + step - 1) step) as Hlt.
  split; intros Hk; nia.
Qed.

Lemma batches_length todo :
  length (batches todo) = ((length todo + BATCH_SIZE - 1) `div` BATCH_SIZE)%nat.
Proof. unfold batches. by rewrite length_fmap, py_range_length. Qed.

Lemma batches_lookup todo k :
  (k < length (batches todo))%nat ->
  batches todo !! k
  = Some (slice todo (k * BATCH_SIZE) (k * BATCH_SIZE + BATCH_SIZE)).
Proof.
  intros Hk. unfold batches in *. rewrite length_fmap in Hk.
  by rewrite list_lookup_fmap, py_range_lookup.
Qed.

Lemma concat_batches_take todo k :
  (k <= length (batches todo))%nat ->
  concat (take k (batches todo)) = take (k * BATCH_SIZE) todo.
Proof.
  induction k as [|k IH]; intros Hk; [done|].
  rewrite (take_S_r _ _ _ (batches_lookup todo k Hk)).
  rewrite concat_app, IH by lia. cbn [concat]. rewrite app_nil_r.
  rewrite take_slice. f_equal. lia.
Qed.

(** The loop of [collect_weather_data] cuts its work list into
    consecutive batches: put end to end they give the list back, none is
    empty, none has more than [BATCH_SIZE] cities, and only the last can
    have fewer. *)
Theorem batches_partition_the_work todo :
  concat (batches todo) = todo /\
  Forall (fun b => (0 < length b <= BATCH_SIZE)%nat) (batches todo) /\
  (forall k b, batches todo !! k = Some b -> (S k < length (batches todo))%nat ->
     length b = BATCH_SIZE).
Proof.
  assert (0 < BATCH_SIZE)%nat as HB by (unfold BATCH_SIZE; lia).
  split_and!.
  - rewrite <- (firstn_all (batches todo)).
    rewrite concat_batches_take by done. apply take_ge.
    rewrite batches_length. fold (length (py_range (length todo) BATCH_SIZE)).
    rewrite <- py_range_length. by apply py_range_covers.
  - apply Forall_lookup. intros k b Hb.
    assert (k < length (batches todo))%nat as Hk by by eapply lookup_lt_Some.
    rewrite batches_lookup in Hb by done. injection Hb as <-.
    rewrite batches_length in Hk. apply (ceil_div_spec _ _ HB) in Hk.
    unfold slice. rewrite length_take, length_drop. lia.
  - intros k b Hb Hk.
    rewrite batches_lookup in Hb by lia. injection Hb as <-.
    rewrite batches_length in Hk. apply (ceil_div_spec _ _ HB) in Hk.
    unfold slice. rewrite length_take, length_drop. lia.
Qed.

(** ** Accounting for a whole run *)

Lemma slept_app evs1 evs2 : slept (evs1 ++ evs2) = slept evs1 ++ slept evs2.
Proof. apply omap_app. Qed.

Lemma slept_EvFetch (cs : list Z) : slept (EvFetch <$> cs) = [].
Proof. by induction cs. Qed.

Lemma saved_EvStore u d : saved [EvStore u d] = [d].
Proof. done. Qed.

Lemma slept_EvStore u d : slept [EvStore u d] = [].
Proof. done. Qed.

Lemma redis_key_inj u u' : redis_key u = redis_key u' -> u = u'.
Proof. unfold redis_key. cbn. intros [= H]. exact H. Qed.

Section Accounting.
Context {L : Libs}.
Variable session_get : nat -> Z -> http_result.
Variable utcnow : nat -> string.

Lemma loop_acc_start u todo results0 w0 :
  loop_acc session_get utcnow u todo results0 w0 0 results0 w0.
Proof.
  unfold loop_acc. cbn. rewrite take_0. cbn.
  rewrite Nat.add_0_r, app_nil_r. split_and!; try done.
  exists []. by rewrite app_nil_r.
Qed.

Lemma collect_step_acc u todo results0 w0 k results w :
  (k < length (py_range (length todo) BATCH_SIZE))%nat ->
  loop_acc session_get utcnow u todo results0 w0 k results w ->
  exists results' w',
    collect_step session_get utcnow u todo results (k * BATCH_SIZE) w
      = (Return results', w') /\
    loop_acc session_get utcnow u todo results0 w0 (S k) results' w'.
Proof.
  intros Hk (Hcalls & Hres & Hkeys & evs & Htr & Hsaved & Hslept).
  assert (0 < BATCH_SIZE)%nat as HB by (unfold BATCH_SIZE; lia).
  eexists _, _. split; [apply collect_step_spec|].
  set (batch := slice todo (k * BATCH_SIZE) (k * BATCH_SIZE + BATCH_SIZE)).
  assert (take (S k * BATCH_SIZE) todo = take (k * BATCH_SIZE) todo ++ batch)
    as Htake.
  { subst batch. rewrite take_slice. f_equal. lia. }
  unfold loop_acc. cbn [calls redis_client trace]. split_and!.
  - rewrite Htake, length_app. lia.
  - rewrite Htake, batch_results_app, Hres, Hcalls. by rewrite <- app_assoc.
  - intros key Hne. rewrite lookup_insert_ne by done. by apply Hkeys.
  - eexists. split; [rewrite Htr; by rewrite <- app_assoc|].
    rewrite !saved_app, saved_EvFetch, saved_pause, saved_EvStore.
    rewrite !slept_app, slept_EvFetch, slept_EvStore. cbn [app].
    rewrite !length_app, Hsaved. cbn [length]. split; [lia|].
    rewrite Hslept. rewrite py_range_length in *.
    unfold pause.
    destruct (k * BATCH_SIZE + BATCH_SIZE <? length todo)%nat eqn:Hp.
    + apply Nat.ltb_lt in Hp.
      assert (S k < (length todo + BATCH_SIZE - 1) `div` BATCH_SIZE)%nat as Hlt.
      { apply (ceil_div_spec _ _ HB). lia. }
      rewrite !Nat.min_l by lia. cbn.
      by rewrite <- replicate_S_end.
    + apply Nat.ltb_ge in Hp.
      assert (~ (S k < (length todo + BATCH_SIZE - 1) `div` BATCH_SIZE)%nat) as Hge.
      { rewrite (ceil_div_spec _ _ HB). lia. }
      rewrite !Nat.min_r by lia. cbn. by rewrite app_nil_r.
Qed.

Lemma collect_loop_acc u todo results0 w0 :
  exists results w,
    foldM (collect_step session_get utcnow u todo)
      (py_range (length todo) BATCH_SIZE) results0 w0 = (Return results, w) /\
    loop_acc session_get utcnow u todo results0 w0
      (length (py_range (length todo) BATCH_SIZE)) results w.
Proof.
  destruct (foldM_inv (collect_step session_get utcnow u todo)
              (fun k r w =>
                 (k <= length (py_range (length todo) BATCH_SIZE))%nat /\
                 loop_acc session_get utcnow u todo results0 w0 k r w)
              (py_range (length todo) BATCH_SIZE))
    with (a := results0) (w := w0) as (r & w & Hrun & _ & Hacc).
  - intros k i r w Hi [Hk Hacc].
    assert (k < length (py_range (length todo) BATCH_SIZE))%nat as Hlt
      by by eapply lookup_lt_Some.
    rewrite py_range_lookup in Hi by done. injection Hi as <-.
    destruct (collect_step_acc u todo results0 w0 k r w Hlt Hacc)
      as (r' & w' & Hstep & Hacc').
    exists r', w'. split; [done|]. split; [lia|done].
  - split; [lia|]. apply loop_acc_start.
  - by exists r, w.
Qed.

End Accounting.

Section RunFacts.
Context {L : Libs}.
Variable CITIES : list Z.
Variable session_get : nat -> Z -> http_result.
Variable utcnow : nat -> string.

Lemma take_whole_work (todo : list Z) :
  take (length (py_range (length todo) BATCH_SIZE) * BATCH_SIZE) todo = todo.
Proof. apply take_ge, py_range_covers. unfold BATCH_SIZE. lia. Qed.

(** A run that can read the state returns, and its loop ends in a state
    that satisfies both descriptions of the loop. *)
Lemma collect_weather_data_full u w results0 :
  decode (redis_client w) u = Return results0 ->
  exists results w',
    collect_weather_data CITIES session_get utcnow u w
      = (Return (length results), w') /\
    loop_inv u (cities_to_process CITIES results0) results0 w
      (length (py_range (length (cities_to_process CITIES results0)) BATCH_SIZE))
      results w' /\
    loop_acc session_get utcnow u (cities_to_process CITIES results0) results0 w
      (length (py_range (length (cities_to_process CITIES results0)) BATCH_SIZE))
      results w'.
Proof.
  intros Hdec. set (todo := cities_to_process CITIES results0).
  destruct (collect_loop_prefix session_get utcnow u todo results0 w
              (length (py_range (length todo) BATCH_SIZE)))
    as (r1 & w1 & Hrun1 & Hinv); [done|].
  rewrite firstn_all in Hrun1.
  destruct (collect_loop_acc session_get utcnow u todo results0 w)
    as (r2 & w2 & Hrun2 & Hacc).
  rewrite Hrun1 in Hrun2. injection Hrun2 as <- <-.
  exists r1, w1. split_and!; [|done..].
  unfold collect_weather_data, try_reraise, bind, get_weather_data.
  rewrite Hdec. fold todo. by rewrite Hrun1.
Qed.

(** What a run costs and returns: one outbound call per outstanding city,
    one store per batch, one pause of 60 seconds between consecutive
    batches and none after the last, no task created; the number returned
    is the number of observations it started with plus the number of
    fetches that yielded one. *)
Theorem run_accounting u w results0 :
  decode (redis_client w) u = Return results0 ->
  let todo := cities_to_process CITIES results0 in
  exists n w' evs,
    collect_weather_data CITIES session_get utcnow u w = (Return n, w') /\
    trace w' = trace w ++ evs /\
    calls w' = (calls w + length todo)%nat /\
    tasks w' = tasks w /\
    n = (length results0
         + length (batch_results session_get utcnow (calls w) todo u))%nat /\
    (length results0 <= n <= length results0 + length todo)%nat /\
    length (saved evs) = length (batches todo) /\
    slept evs = replicate (length (batches todo) - 1) 60%nat.
Proof.
  intros Hdec todo.
  destruct (collect_weather_data_full u w results0 Hdec)
    as (results & w' & Hrun & Hinv & Hacc). fold todo in Hinv, Hacc.
  destruct Hacc as (Hcalls & Hres & _ & evs & Htr & Hsaved & Hslept).
  destruct Hinv as (evs' & _ & Htasks & _).
  rewrite take_whole_work in Hcalls, Hres.
  pose proof (batch_results_length session_get utcnow (calls w) todo u) as Hle.
  exists (length results), w', evs.
  assert (length results
          = length results0
            + length (batch_results session_get utcnow (calls w) todo u))%nat
    as Hlen by by rewrite Hres, length_app.
  split_and!; try done; try lia.
  - unfold batches. by rewrite length_fmap.
  - rewrite Hslept. unfold batches. rewrite length_fmap. f_equal. lia.
Qed.

(** A run for a user who already has an observation for every catalog
    city returns the number of persisted observations and changes nothing:
    no call, no store, no pause. *)
Theorem run_on_a_covered_state_does_nothing u w results0 :
  decode (redis_client w) u = Return results0 ->
  (forall c, c ∈ CITIES -> c ∈ city_id <$> results0) ->
  collect_weather_data CITIES session_get utcnow u w
  = (Return (length results0), w).
Proof.
  intros Hdec Hcov.
  assert (cities_to_process CITIES results0 = []) as Htodo.
  { unfold cities_to_process.
    destruct (filter _ CITIES) as [|c todo] eqn:Hfil; [done|].
    assert (c ∈ filter (fun city => city ∉ processed_city_ids results0) CITIES)
      as Hin by (rewrite Hfil; left).
    apply list_elem_of_filter in Hin as [Hnot Hc].
    destruct Hnot. apply elem_of_processed_city_ids. by apply Hcov. }
  unfold collect_weather_data, try_reraise, bind, get_weather_data.
  rewrite Hdec, Htodo. done.
Qed.

(** A run for one user leaves every other key of the store as it was, so
    what is read for any other user is unchanged. *)
Theorem run_leaves_other_users_alone u w results0 :
  decode (redis_client w) u = Return results0 ->
  exists n w',
    collect_weather_data CITIES session_get utcnow u w = (Return n, w') /\
    (forall key, key <> redis_key u ->
       redis_client w' !! key = redis_client w !! key) /\
    (forall u', u' <> u ->
       decode (redis_client w') u' = decode (redis_client w) u').
Proof.
  intros Hdec.
  destruct (collect_weather_data_full u w results0 Hdec)
    as (results & w' & Hrun & _ & (_ & _ & Hkeys & _)).
  exists (length results), w'. split_and!; [done..|].
  intros u' Hne. unfold decode. rewrite Hkeys; [done|].
  intros Heq. by apply Hne, redis_key_inj.
Qed.

End RunFacts.

Section RunLaws.
Context {L : Libs} (laws : LibsLaws L).
Variable CITIES : list Z.
Variable session_get : nat -> Z -> http_result.
Variable utcnow : nat -> string.

(** After a run the store reads as the list the run started from followed
    by the observations its fetches yielded, in catalog order, and the
    number the run returns is the length of that list: cutting the work
    into batches does not change what is collected. *)
Theorem run_leaves_its_result_in_the_store u w results0 :
  decode (redis_client w) u = Return results0 ->
  let final := results0 ++ batch_results session_get utcnow (calls w)
                             (cities_to_process CITIES results0) u in
  exists w',
    collect_weather_data CITIES session_get utcnow u w
      = (Return (length final), w') /\
    decode (redis_client w') u = Return final.
Proof.
  intros Hdec final.
  destruct (collect_weather_data_full CITIES session_get utcnow u w results0 Hdec)
    as (results & w' & Hrun & Hinv & (_ & Hres & _)).
  rewrite take_whole_work in Hres. fold final in Hres. subst results.
  exists w'. split; [done|]. by eapply (loop_inv_decode laws).
Qed.

(** A run keeps the persisted list well-formed: if the catalog has no
    duplicate and the list it starts from has at most one observation per
    city, so has the list it leaves; every observation it adds is for the
    requesting user and for a catalog city. *)
Theorem run_keeps_the_state_invariants u w results0 :
  decode (redis_client w) u = Return results0 ->
  NoDup CITIES ->
  NoDup (city_id <$> results0) ->
  exists n w' added,
    collect_weather_data CITIES session_get utcnow u w = (Return n, w') /\
    decode (redis_client w') u = Return (results0 ++ added) /\
    NoDup (city_id <$> results0 ++ added) /\
    Forall (fun o => user_id o = u /\ city_id o ∈ CITIES) added.
Proof.
  intros Hdec HC H0.
  destruct (collect_weather_data_full CITIES session_get utcnow u w results0 Hdec)
    as (results & w' & Hrun & Hinv & (_ & Hres & _)).
  rewrite take_whole_work in Hres.
  set (todo := cities_to_process CITIES results0) in *.
  set (added := batch_results session_get utcnow (calls w) todo u) in *.
  pose proof (batch_results_sublist laws session_get utcnow (calls w) todo u)
    as Hsub. fold added in Hsub.
  assert (forall c, c ∈ city_id <$> added ->
            c ∈ CITIES /\ c ∉ city_id <$> results0) as Hnew.
  { intros c Hc. apply (sublist_subseteq _ _ Hsub) in Hc.
    apply list_elem_of_filter in Hc as [Hnot Hin]. split; [done|].
    by rewrite <- elem_of_processed_city_ids. }
  exists (length results), w', added. split_and!.
  - done.
  - rewrite <- Hres. by eapply (loop_inv_decode laws).
  - rewrite fmap_app. apply NoDup_app. split_and!.
    + done.
    + intros c Hc0 Hc. by apply Hnew in Hc as [_ ?].
    + apply (sublist_NoDup _ todo); [|done]. by apply NoDup_filter.
  - apply Forall_forall. intros o Ho. split.
    + pose proof (batch_results_user laws session_get utcnow (calls w) todo u)
        as Hu. fold added in Hu. by eapply Forall_forall in Hu.
    + apply Hnew. by apply list_elem_of_fmap_2.
Qed.

End RunLaws.

Section Resume.
Context {L : Libs} (laws : LibsLaws L).
Variable CITIES : list Z.
Variables session_get1 session_get2 : nat -> Z -> http_result.
Variables utcnow1 utcnow2 : nat -> string.

(** Two runs in a row for the same user, whatever the remote service
    answers in each: the second calls the remote service for exactly the
    catalog cities that have no observation in what the first left in the
    store, every one of which the first run had called for as well, and it
    returns at least the number the first returned. *)
Theorem resumption_refetches_only_failures u w results0 :
  decode (redis_client w) u = Return results0 ->
  exists n1 w1 evs1 final1 n2 w2 evs2,
    collect_weather_data CITIES session_get1 utcnow1 u w = (Return n1, w1) /\
    trace w1 = trace w ++ evs1 /\
    decode (redis_client w1) u = Return final1 /\
    collect_weather_data CITIES session_get2 utcnow2 u w1 = (Return n2, w2) /\
    trace w2 = trace w1 ++ evs2 /\
    fetched evs2 = filter (fun c => c ∉ city_id <$> final1) CITIES /\
    (forall c, c ∈ fetched evs2 -> c ∈ fetched evs1) /\
    (n1 <= n2)%nat.
Proof.
  intros Hdec.
  destruct (collect_weather_data_spec CITIES session_get1 utcnow1 u w results0 Hdec)
    as (r1 & w1 & Hrun1 & Hinv1).
  pose proof (loop_inv_decode laws _ _ _ _ _ _ _ Hdec Hinv1) as Hdec1.
  destruct (collect_weather_data_spec CITIES session_get2 utcnow2 u w1 r1 Hdec1)
    as (r2 & w2 & Hrun2 & Hinv2).
  pose proof Hinv1 as (evs1 & Htr1 & _ & _ & Hpre1 & _).
  pose proof Hinv2 as (evs2 & Htr2 & _ & _ & Hpre2 & _).
  pose proof (loop_inv_fetched_all _ _ _ _ _ _ _ Hinv1 Htr1) as Hf1.
  pose proof (loop_inv_fetched_all _ _ _ _ _ _ _ Hinv2 Htr2) as Hf2.
  exists (length r1), w1, evs1, r1, (length r2), w2, evs2.
  split_and!; try done.
  - rewrite Hf2. unfold cities_to_process. apply list_filter_iff.
    intros c. by rewrite elem_of_processed_city_ids.
  - intros c. rewrite Hf1, Hf2. unfold cities_to_process.
    rewrite !list_elem_of_filter, !elem_of_processed_city_ids.
    intros [Hnot Hin]. split; [|done]. intros Hc0. apply Hnot.
    destruct Hpre1 as [rest ->]. rewrite fmap_app. apply elem_of_app. by left.
  - by apply prefix_length.
Qed.

End Resume.

Section Complete.
Context {L : Libs} (laws : LibsLaws L).
Variable CITIES : list Z.
Variable session_get : nat -> Z -> http_result.
Variable utcnow : nat -> string.

(** The outstanding cities and the persisted ones add up to the catalog. *)
Lemma remaining_count (results0 : list WeatherData) :
  NoDup CITIES ->
  NoDup (city_id <$> results0) ->
  (forall c, c ∈ city_id <$> results0 -> c ∈ CITIES) ->
  (length (cities_to_process CITIES results0) + length results0
   = length CITIES)%nat.
Proof.
  intros HC H0 Hsub. unfold cities_to_process.
  set (P := fun city : Z => city ∉ processed_city_ids results0).
  rewrite <- (Permutation_length (filter_app_complement P CITIES)).
  rewrite length_app. f_equal.
  rewrite <- (length_fmap city_id results0). symmetry.
  apply Permutation_length, NoDup_Permutation; [by apply NoDup_filter|done|].
  intros c. rewrite list_elem_of_filter. unfold P.
  rewrite elem_of_processed_city_ids. split.
  - intros [Hnn _]. by apply dec_stable.
  - intros Hc. split; [|by apply Hsub]. by intros Hnot.
Qed.

(** If every outbound call yields an observation, a run started from a
    well-formed state of a non-empty, duplicate-free catalog ends with one
    observation per catalog city: it returns the catalog size, the store
    then reads as a list of that length, and a start request answers that
    the collection is completed. *)
Theorem all_success_run_completes u w results0 :
  decode (redis_client w) u = Return results0 ->
  NoDup CITIES ->
  NoDup (city_id <$> results0) ->
  (forall c, c ∈ city_id <$> results0 -> c ∈ CITIES) ->
  CITIES <> [] ->
  (forall n c, fetch_result session_get utcnow n c u <> None) ->
  exists w',
    collect_weather_data CITIES session_get utcnow u w
      = (Return (length CITIES), w') /\
    (exists final,
       decode (redis_client w') u = Return final /\
       length final = length CITIES) /\
    fst (post_weather_data CITIES {| req_user_id := u |} w')
      = Return {| message := "Data collection already completed for this user_id";
                  resp_user_id := u |}.
Proof.
  intros Hdec HC H0 Hsub Hne Hall.
  destruct (collect_weather_data_full CITIES session_get utcnow u w results0 Hdec)
    as (results & w' & Hrun & Hinv & (_ & Hres & _)).
  rewrite take_whole_work in Hres.
  pose proof (loop_inv_decode laws _ _ _ _ _ _ _ Hdec Hinv) as Hdec'.
  assert (length results = length CITIES) as Hlen.
  { rewrite Hres, length_app, batch_results_all by (intros; apply Hall).
    rewrite Nat.add_comm. by apply remaining_count. }
  assert (results <> []) as Hres_ne.
  { intros ->. destruct CITIES; [done|discriminate]. }
  exists w'. split_and!.
  - by rewrite <- Hlen.
  - by exists results.
  - by rewrite (post_weather_data_complete CITIES {| req_user_id := u |} w' results).
Qed.

End Complete.

(** ** One batch *)

Section Batch.
Context {L : Libs} (laws : LibsLaws L).
Variable session_get : nat -> Z -> http_result.
Variable utcnow : nat -> string.

(** [process_batch] calls [fetch_weather_data] once per city of the
    batch, in the order of the batch, and touches neither the store nor
    the tasks.
    The observations it returns are for the requesting user and their
    city ids are those of the batch, in batch order, with the cities
    whose fetch yielded nothing left out. *)
Theorem process_batch_calls_each_city_once batch u w :
  exists got w',
    process_batch session_get utcnow batch u w = (Return got, w') /\
    redis_client w' = redis_client w /\
    tasks w' = tasks w /\
    calls w' = (calls w + length batch)%nat /\
    trace w' = trace w ++ (EvFetch <$> batch) /\
    city_id <$> got `sublist_of` batch /\
    Forall (fun o => user_id o = u) got.
Proof.
  eexists _, _. split; [apply process_batch_spec|].
  cbn [redis_client tasks calls trace]. split_and!; try done.
  - by apply batch_results_sublist.
  - by apply batch_results_user.
Qed.

End Batch.

(** ** The store *)

Lemma mapM_Return_iff {A B} (f : A -> outcome B) l bs :
  mapM f l = Return bs <-> Forall2 (fun a b => f a = Return b) l bs.
Proof.
  revert bs. induction l as [|a l IH]; intros bs; cbn.
  - split.
    + intros [= <-]. constructor.
    + intros Hf. by inv Hf.
  - destruct (f a) as [b|e] eqn:Hfa; cbn.
    + destruct (mapM f l) as [bs'|e] eqn:Hm; cbn.
      * split.
        -- intros [= <-]. constructor; [done|]. by apply IH.
        -- intros Hf. inv Hf. f_equal.
           assert (Return bs' = Return l') as [= ->] by by apply IH.
           congruence.
      * split; [done|]. intros Hf. inv Hf.
        assert (Raise e = Return l') by by apply IH. done.
    + split; [done|]. intros Hf. inv Hf. congruence.
Qed.

Section Reads.
Context {L : Libs}.

(** Reading a user's list: a missing key or a falsy blob reads as the
    empty list without the blob being parsed; a blob that cannot be
    parsed raises; and a blob that holds a JSON array reads as a list
    exactly when every entry of the array passes the constructor of
    [WeatherData], the list then having one observation per entry, in
    order. One bad entry makes the whole read raise. *)
Theorem read_is_all_or_nothing (db : gmap string bytes) u :
  (db !! redis_key u = None -> decode db u = Return []) /\
  (forall blob, db !! redis_key u = Some blob ->
     (bytes_truthy blob = false -> decode db u = Return []) /\
     (bytes_truthy blob = true ->
        (forall e, json_loads blob = Raise e -> decode db u = Raise e) /\
        (forall ds, json_loads blob = Return (JArr ds) ->
           forall data,
             decode db u = Return data <->
             Forall2 (fun d o => WeatherData_splat d = Return o) ds data))).
Proof.
  unfold decode. split.
  - by intros ->.
  - intros blob ->. split.
    + by intros ->.
    + intros ->. split.
      * by intros e ->.
      * intros ds ->. cbn. intros data. apply mapM_Return_iff.
Qed.

(** [store_weather_data] writes one key: what is read for any other
    user is unchanged, and so are the call counter and the tasks. *)
Theorem store_leaves_other_users_alone u data w u' :
  u' <> u ->
  exists w',
    store_weather_data u data w = (Return tt, w') /\
    decode (redis_client w') u' = decode (redis_client w) u' /\
    calls w' = calls w /\ tasks w' = tasks w.
Proof.
  intros Hne. eexists. split; [reflexivity|].
  cbn [redis_client calls tasks]. split_and!; [|done..].
  unfold decode. rewrite lookup_insert_ne; [done|].
  intros Heq. apply redis_key_inj in Heq. congruence.
Qed.

End Reads.

(** ** The endpoints and the middleware *)

Section EndpointFacts.
Context {L : Libs}.
Variable CITIES : list Z.

(** A start request reads the store and does nothing else to it: the
    store, the call counter and the trace are as before. It creates a
    task, for the requesting user, exactly when it answers that the
    collection started; and when the state cannot be read it raises the
    same exception and creates nothing. *)
Theorem start_request_effects request w :
  exists out w',
    post_weather_data CITIES request w = (out, w') /\
    redis_client w' = redis_client w /\
    calls w' = calls w /\
    trace w' = trace w /\
    ((out = Return {| message := "Data collection started";
                      resp_user_id := req_user_id request |} /\
      tasks w' = tasks w ++ [req_user_id request]) \/
     (out <> Return {| message := "Data collection started";
                       resp_user_id := req_user_id request |} /\
      w' = w)) /\
    (forall e, decode (redis_client w) (req_user_id request) = Raise e ->
       out = Raise e).
Proof.
  unfold post_weather_data, bind, get_weather_data.
  destruct (decode (redis_client w) (req_user_id request)) as [[|d data]|e].
  - eexists _, _. split; [reflexivity|]. cbn. split_and!; try done. by left.
  - cbn [truthy].
    destruct (length (d :: data) =? length CITIES)%nat;
      eexists _, _; (split; [reflexivity|]); split_and!; try done; by right.
  - eexists _, _. split; [reflexivity|]. split_and!; try done.
    + by right.
    + by intros e' [= ->].
Qed.

(** What a start request answers, and whether it creates a task, depends
    on the persisted list through its length only: two states whose lists
    are equally long get the same answer, whichever cities the
    observations are for. *)
Theorem start_answer_depends_on_length_only request w1 w2 data1 data2 :
  decode (redis_client w1) (req_user_id request) = Return data1 ->
  decode (redis_client w2) (req_user_id request) = Return data2 ->
  length data1 = length data2 ->
  fst (post_weather_data CITIES request w1)
    = fst (post_weather_data CITIES request w2) /\
  (tasks (snd (post_weather_data CITIES request w1)) = tasks w1 <->
   tasks (snd (post_weather_data CITIES request w2)) = tasks w2).
Proof.
  intros H1 H2 Hlen. unfold post_weather_data, bind, get_weather_data.
  rewrite H1, H2.
  destruct data1 as [|d1 data1], data2 as [|d2 data2]; try discriminate.
  - cbn. split; [done|]. split; intros Heq.
    + apply (f_equal length) in Heq. rewrite length_app in Heq. cbn in Heq. lia.
    + apply (f_equal length) in Heq. rewrite length_app in Heq. cbn in Heq. lia.
  - cbn [truthy]. rewrite Hlen.
    by destruct (length (d2 :: data2) =? length CITIES)%nat.
Qed.

(** The progress query never changes the world. It raises what reading
    the state raises, and it raises [ZeroDivisionError] when observations
    are persisted while the catalog is empty. *)
Theorem progress_query_failures u w :
  snd (get_weather_progress CITIES u w) = w /\
  (forall e, decode (redis_client w) u = Raise e ->
     fst (get_weather_progress CITIES u w) = Raise e) /\
  (forall data, decode (redis_client w) u = Return data ->
     data <> [] -> CITIES = [] ->
     fst (get_weather_progress CITIES u w) = Raise ZeroDivisionError).
Proof.
  unfold get_weather_progress, bind, get_weather_data. split_and!.
  - destruct (decode (redis_client w) u) as [[|d data]|e]; [done| |done].
    cbn [truthy negb]. by destruct (length CITIES =? 0)%nat.
  - by intros e ->.
  - intros data -> Hne ->. by destruct data.
Qed.

(** Whatever the rest of the stack does, the middleware returns a reply:
    the one it was handed when the rest returned, and the fixed 500 reply
    when the rest raised; the effects of the rest are kept. *)
Theorem middleware_always_replies (call_next : M Reply) w :
  exists reply,
    error_handling_middleware call_next w = (Return reply, snd (call_next w)) /\
    (forall r, fst (call_next w) = Return r -> reply = r) /\
    (forall e, fst (call_next w) = Raise e ->
       reply = {| reply_status := 500;
                  reply_content :=
                    JObj [("detail", JStr "An unexpected error occurred")] |}).
Proof.
  unfold error_handling_middleware.
  destruct (call_next w) as [[r|e] w']; cbn.
  - exists r. split_and!; [done| |done]. by intros r' [= ->].
  - eexists. split_and!; [done|done|]. by intros e' _.
Qed.

End EndpointFacts.

(** ** The further properties at concrete inputs *)

Lemma fetch_succeeds_iff_witness :
  fetch_result (L := doc_libs) remote_up clock 0 100 "u" = Some (obs "u" 100).
Proof.
  apply (fetch_succeeds_iff doc_libs_laws).
  exists payload,
    (JObj [("temp", JFloat 21.5%float); ("humidity", JInt 60)]),
    (JFloat 21.5%float), (JInt 60), (JStr "Town"), 21.5%float, 60.
  split; [reflexivity|]. split; [reflexivity|]. split; [reflexivity|].
  split; [reflexivity|]. split; [reflexivity|]. split; [reflexivity|].
  split; reflexivity.
Defined.

Lemma fetch_without_name_is_dropped_witness :
  fst (fetch_weather_data (L := doc_libs) remote_nameless clock 100 "u"
         empty_world) = Return None.
Proof.
  apply (fetch_without_name_is_dropped (L := doc_libs) remote_nameless clock
           100 "u" empty_world payload_nameless (KeyError "name")); reflexivity.
Defined.

Lemma process_batch_calls_each_city_once_witness :
  exists got w',
    process_batch (L := doc_libs) remote_without_200 clock catalog3 "u"
      empty_world = (Return got, w') /\
    city_id <$> got `sublist_of` catalog3.
Proof.
  destruct (process_batch_calls_each_city_once doc_libs_laws remote_without_200
              clock catalog3 "u" empty_world)
    as (got & w' & Hrun & _ & _ & _ & _ & Hsub & _).
  exists got, w'. split; [exact Hrun|exact Hsub].
Defined.

Lemma run_accounting_witness :
  exists n w',
    collect_weather_data (L := doc_libs) catalog61 remote_up clock "u"
      empty_world = (Return n, w') /\
    calls w' = 61%nat.
Proof.
  destruct (run_accounting (L := doc_libs) catalog61 remote_up clock "u"
              empty_world [])
    as (n & w' & evs & Hrun & _ & Hcalls & _); [reflexivity|].
  exists n, w'. split; [exact Hrun|]. rewrite Hcalls. vm_compute. reflexivity.
Defined.

Lemma run_on_a_covered_state_does_nothing_witness :
  collect_weather_data catalog3 remote_up clock "u"
    (world_with "u" [obs "u" 100; obs "u" 200; obs "u" 300])
  = (Return 3%nat, world_with "u" [obs "u" 100; obs "u" 200; obs "u" 300]).
Proof.
  apply (run_on_a_covered_state_does_nothing catalog3 remote_up clock "u"
           (world_with "u" [obs "u" 100; obs "u" 200; obs "u" 300])
           [obs "u" 100; obs "u" 200; obs "u" 300]).
  - reflexivity.
  - intros c Hc. exact Hc.
Defined.

Lemma run_leaves_other_users_alone_witness :
  exists n w',
    collect_weather_data catalog3 remote_up clock "v"
      (world_with "u" [obs "u" 100]) = (Return n, w') /\
    decode (redis_client w') "u" = Return [obs "u" 100].
Proof.
  destruct (run_leaves_other_users_alone catalog3 remote_up clock "v"
              (world_with "u" [obs "u" 100]) [])
    as (n & w' & Hrun & _ & Hother); [reflexivity|].
  exists n, w'. split; [exact Hrun|].
  rewrite (Hother "u"); [reflexivity|discriminate].
Defined.

Lemma run_leaves_its_result_in_the_store_witness :
  exists w',
    collect_weather_data catalog3 remote_without_200 clock "u"
      (empty_world (L := doc_libs)) = (Return 2%nat, w') /\
    decode (redis_client w') "u" = Return [obs "u" 100; obs "u" 300].
Proof.
  destruct (run_leaves_its_result_in_the_store doc_libs_laws catalog3
              remote_without_200 clock "u" empty_world [])
    as (w' & Hrun & Hdec); [reflexivity|].
  exists w'. split; [exact Hrun|exact Hdec].
Defined.

Lemma run_keeps_the_state_invariants_witness :
  exists n w' added,
    collect_weather_data catalog3 remote_without_200 clock "u"
      (world_with "u" [obs "u" 100]) = (Return n, w') /\
    NoDup (city_id <$> [obs "u" 100] ++ added).
Proof.
  destruct (run_keeps_the_state_invariants doc_libs_laws catalog3
              remote_without_200 clock "u" (world_with "u" [obs "u" 100])
              [obs "u" 100])
    as (n & w' & added & Hrun & _ & Hnd & _).
  - reflexivity.
  - compute_done.
  - compute_done.
  - exists n, w', added. split; [exact Hrun|exact Hnd].
Defined.

Lemma resumption_refetches_only_failures_witness :
  exists n1 w1 n2 w2 evs2,
    collect_weather_data catalog3 remote_without_200 clock "u"
      (empty_world (L := doc_libs)) = (Return n1, w1) /\
    collect_weather_data catalog3 remote_up clock "u" w1 = (Return n2, w2) /\
    trace w2 = trace w1 ++ evs2 /\
    (n1 <= n2)%nat.
Proof.
  destruct (resumption_refetches_only_failures doc_libs_laws catalog3
              remote_without_200 remote_up clock clock "u" empty_world [])
    as (n1 & w1 & evs1 & final1 & n2 & w2 & evs2
        & Hrun1 & _ & _ & Hrun2 & Htr2 & _ & _ & Hle); [reflexivity|].
  exists n1, w1, n2, w2, evs2.
  split; [exact Hrun1|]. split; [exact Hrun2|]. split; [exact Htr2|exact Hle].
Defined.

Lemma all_success_run_completes_witness :
  exists w',
    collect_weather_data catalog3 remote_up clock "u"
      (world_with "u" [obs "u" 200]) = (Return 3%nat, w') /\
    fst (post_weather_data catalog3 {| req_user_id := "u" |} w')
      = Return {| message := "Data collection already completed for this user_id";
                  resp_user_id := "u" |}.
Proof.
  destruct (all_success_run_completes doc_libs_laws catalog3 remote_up clock "u"
              (world_with "u" [obs "u" 200]) [obs "u" 200])
    as (w' & Hrun & _ & Hpost).
  - reflexivity.
  - compute_done.
  - compute_done.
  - intros c Hc. cbn in Hc. apply list_elem_of_singleton in Hc. subst c.
    compute_done.
  - discriminate.
  - intros n c. discriminate.
  - exists w'. split; [exact Hrun|exact Hpost].
Defined.

Lemma store_leaves_other_users_alone_witness :
  exists w',
    store_weather_data "v" [obs "v" 100] (world_with "u" [obs "u" 300])
      = (Return tt, w') /\
    decode (redis_client w') "u" = Return [obs "u" 300].
Proof.
  destruct (store_leaves_other_users_alone (L := doc_libs) "v" [obs "v" 100]
              (world_with "u" [obs "u" 300]) "u")
    as (w' & Hrun & Hdec & _); [discriminate|].
  exists w'. split; [exact Hrun|]. rewrite Hdec. reflexivity.
Defined.

Lemma start_answer_depends_on_length_only_witness :
  fst (post_weather_data catalog3 {| req_user_id := "u" |}
         (world_with "u" [obs "u" 100; obs "u" 100; obs "u" 100]))
  = fst (post_weather_data catalog3 {| req_user_id := "u" |}
           (world_with "u" [obs "u" 100; obs "u" 200; obs "u" 300])).
Proof.
  apply (start_answer_depends_on_length_only (L := doc_libs) catalog3
           {| req_user_id := "u" |}
           (world_with "u" [obs "u" 100; obs "u" 100; obs "u" 100])
           (world_with "u" [obs "u" 100; obs "u" 200; obs "u" 300])
           [obs "u" 100; obs "u" 100; obs "u" 100]
           [obs "u" 100; obs "u" 200; obs "u" 300]); reflexivity.
Defined.

